(** * Zomato data-cleaning pipeline: a shallow embedding and its properties

    The development follows the Python sources under [DS/Task1/Zomato]:
    [config/settings.py], [src/data_cleaner.py], [src/feature_engineer.py],
    [src/quality_checker.py] and the cleaning phase of [main.py].

    Modelling conventions.
    - A Python [float] that is not NaN is a [float]: an exact rational or a
      signed infinity.  NaN is the absent value ([None] of [option float], the
      cell [NaN]).  Arithmetic is exact: rounding and overflow of IEEE doubles
      are outside the model.
    - A Python [str] is a [string]; the character classes (digit, whitespace,
      cased letter) and the case mappings are the ASCII ones, any other
      character is neither a digit, a space nor a letter.
    - A pandas [DataFrame] is an index length and an ordered list of named
      columns; a missing cell is the NaN that [read_csv] produces.  A column is
      numeric when none of its cells is a string (pandas 2 refuses to take the
      median, a quantile or bins of such a column with a [TypeError]).
    - Objects live in a store: a method receives a reference, [df.copy()]
      allocates, [df[c] = s] writes through the reference.  Exceptions are the
      [Raise] outcome of a call.  The logger is the list of events written. *)

From Stdlib Require Import Ascii String QArith Qcanon Qround Lqa.
From stdpp Require Import base decidable option list sets strings numbers.

Local Open Scope Z_scope.

#[local] Set Warnings "-clear-no-such-hyp".


(** ** Python exceptions and outcomes *)

Inductive exn :=
  | KeyError (key : string)
  | TypeError
  | ValueError.

Inductive result (A : Type) :=
  | Ok (a : A)
  | Raise (e : exn).
Arguments Ok {A} a.
Arguments Raise {A} e.

Global Instance exn_eq_dec : EqDecision exn.
Proof. solve_decision. Defined.

Global Instance result_eq_dec {A} `{EqDecision A} : EqDecision (result A).
Proof. solve_decision. Defined.

Definition result_bind {A B} (r : result A) (k : A → result B) : result B :=
  match r with
  | Ok a => k a
  | Raise e => Raise e
  end.

(** ** Floats *)

Inductive float :=
  | Fin (q : Qc)
  | Inf (neg : bool).

Global Instance float_eq_dec : EqDecision float.
Proof. solve_decision. Defined.

Definition Qc_of_nat (n : nat) : Qc := Qc_of_Z (Z.of_nat n).

Definition fle (a b : float) : bool :=
  match a, b with
  | Fin x, Fin y => bool_decide (x ≤ y)%Qc
  | Inf true, _ => true
  | _, Inf false => true
  | _, _ => false
  end.

Definition flt (a b : float) : bool := negb (fle b a).

Definition fneg (a : float) : float :=
  match a with
  | Fin x => Fin (- x)%Qc
  | Inf s => Inf (negb s)
  end.

(** IEEE addition: opposite infinities add up to NaN. *)
Definition fadd (a b : float) : option float :=
  match a, b with
  | Fin x, Fin y => Some (Fin (x + y)%Qc)
  | Inf s, Fin _ | Fin _, Inf s => Some (Inf s)
  | Inf s, Inf s' => if bool_decide (s = s') then Some (Inf s) else None
  end.

Definition fsub (a b : float) : option float := fadd a (fneg b).

Definition Qc_neg (x : Qc) : bool := bool_decide (x < 0)%Qc.

(** IEEE multiplication: zero times an infinity is NaN. *)
Definition fmul (a b : float) : option float :=
  match a, b with
  | Fin x, Fin y => Some (Fin (x * y)%Qc)
  | Inf s, Fin y | Fin y, Inf s =>
      if bool_decide (y = 0%Qc) then None else Some (Inf (xorb s (Qc_neg y)))
  | Inf s, Inf s' => Some (Inf (xorb s s'))
  end.

Definition of_nat (n : nat) : float := Fin (Qc_of_nat n).
Definition of_Z (z : Z) : float := Fin (Qc_of_Z z).

(** ** Strings: the [str] methods the sources call *)

Definition is_digit (c : ascii) : bool := bool_decide (is_Some (Ascii.is_nat c)).

Definition digit_val (c : ascii) : Z := Z.of_nat (default 0%nat (Ascii.is_nat c)).

(** [str.isspace] on ASCII: TAB to CR, the separators FS to US, and space. *)
Definition py_isspace (c : ascii) : bool :=
  let n := nat_of_ascii c in
  ((9 <=? n) && (n <=? 13) || (28 <=? n) && (n <=? 32))%nat.

Definition is_upper (c : ascii) : bool :=
  let n := nat_of_ascii c in ((65 <=? n) && (n <=? 90))%nat.

Definition is_lower (c : ascii) : bool :=
  let n := nat_of_ascii c in ((97 <=? n) && (n <=? 122))%nat.

Definition to_upper (c : ascii) : ascii :=
  if is_lower c then ascii_of_nat (nat_of_ascii c - 32) else c.

Definition to_lower (c : ascii) : ascii :=
  if is_upper c then ascii_of_nat (nat_of_ascii c + 32) else c.

Fixpoint lower (s : string) : string :=
  match s with
  | "" => ""
  | String c s => String (to_lower c) (lower s)
  end.

Fixpoint lstrip (s : string) : string :=
  match s with
  | "" => ""
  | String c s' => if py_isspace c then lstrip s' else s
  end.

Fixpoint rstrip (s : string) : string :=
  match s with
  | "" => ""
  | String c s' =>
      match rstrip s' with
      | "" => if py_isspace c then "" else String c ""
      | r => String c r
      end
  end.

(** [str.strip()] *)
Definition strip (s : string) : string := rstrip (lstrip s).

(** [str.title()]: a cased letter is upper-cased when the character before it
    is not a cased letter and lower-cased otherwise. *)
Fixpoint title_from (previous_is_cased : bool) (s : string) : string :=
  match s with
  | "" => ""
  | String c s =>
      String (if previous_is_cased then to_lower c else to_upper c)
             (title_from (is_upper c || is_lower c) s)
  end.

Definition title (s : string) : string := title_from false s.

(** [s.replace(',', '')] *)
Fixpoint remove_commas (s : string) : string :=
  match s with
  | "" => ""
  | String c s => if bool_decide (c = ","%char) then remove_commas s
                  else String c (remove_commas s)
  end.

(** [s.split(',')] *)
Fixpoint split_commas (s : string) : list string :=
  match s with
  | "" => [""]
  | String c s =>
      if bool_decide (c = ","%char) then "" :: split_commas s
      else match split_commas s with
           | w :: ws => String c w :: ws
           | [] => [String c ""]
           end
  end.

(** The longest prefix of digits, and what follows it. *)
Fixpoint span_digits (s : string) : string * string :=
  match s with
  | "" => ("", "")
  | String c s' =>
      if is_digit c then let '(d, r) := span_digits s' in (String c d, r)
      else ("", s)
  end.

Fixpoint digits_value (acc : Z) (ds : string) : Z :=
  match ds with
  | "" => acc
  | String c ds => digits_value (10 * acc + digit_val c) ds
  end.

(** The number [d1.d2] written in decimal digits. *)
Definition decimal (d1 d2 : string) : Qc :=
  (Qc_of_Z (digits_value 0 d1)
   + Qc_of_Z (digits_value 0 d2) / Qc_of_Z (10 ^ Z.of_nat (String.length d2)))%Qc.

(** ** [float(s)] for a string

    Surrounding whitespace is dropped; an underscore may stand between two
    digits; then comes a sign, and [inf], [infinity], [nan] in any case or a
    decimal number with an optional exponent.  Anything else is a
    [ValueError]. *)

Fixpoint underscores_ok (prev : ascii) (s : string) : bool :=
  match s with
  | "" => negb (bool_decide (prev = "_"%char))
  | String c s' =>
      (if bool_decide (c = "_"%char) then is_digit prev
       else negb (bool_decide (prev = "_"%char)) || is_digit c)
      && underscores_ok c s'
  end.

Fixpoint remove_underscores (s : string) : string :=
  match s with
  | "" => ""
  | String c s => if bool_decide (c = "_"%char) then remove_underscores s
                  else String c (remove_underscores s)
  end.

Definition parse_sign (s : string) : bool * string :=
  match s with
  | String "-" s' => (true, s')
  | String "+" s' => (false, s')
  | _ => (false, s)
  end.

(** The exponent part: nothing, or [e], an optional sign and digits. *)
Definition parse_exponent (s : string) : option Z :=
  match s with
  | "" => Some 0
  | String c s' =>
      if bool_decide (c = "e"%char) || bool_decide (c = "E"%char) then
        let '(neg, s'') := parse_sign s' in
        match span_digits s'' with
        | (String d ds, "") =>
            let e := digits_value 0 (String d ds) in
            Some (if neg then - e else e)
        | _ => None
        end
      else None
  end.

Definition pow10 (e : Z) : Qc :=
  if (0 <=? e) then Qc_of_Z (10 ^ e) else (1 / Qc_of_Z (10 ^ (- e)))%Qc.

Definition parse_decimal (s : string) : option Qc :=
  let '(d1, r1) := span_digits s in
  let '(d2, r2) :=
    match r1 with
    | String "." r => span_digits r
    | _ => ("", r1)
    end in
  if bool_decide (d1 = "") && bool_decide (d2 = "") then None
  else e ← parse_exponent r2; Some (decimal d1 d2 * pow10 e)%Qc.

Definition float_of_string (s : string) : result (option float) :=
  let t := strip s in
  if negb (underscores_ok " " t) then Raise ValueError else
  let '(neg, body) := parse_sign (remove_underscores t) in
  let word := lower body in
  if bool_decide (word = "inf") || bool_decide (word = "infinity") then
    Ok (Some (Inf neg))
  else if bool_decide (word = "nan") then Ok None
  else match parse_decimal body with
       | Some q => Ok (Some (Fin (if neg then - q else q)%Qc))
       | None => Raise ValueError
       end.


(** ** pandas: cells, Series and DataFrame *)

Inductive cell :=
  | NaN
  | Str (s : string)
  | Num (x : float).

Global Instance cell_eq_dec : EqDecision cell.
Proof. solve_decision. Defined.

Abbreviation Series := (list cell).

(** The columns in their order.  Rows are aligned by position; the index
    length of a frame is the length of its columns (0 without columns). *)
Record DataFrame := mkDataFrame { data : list (string * Series) }.

Global Instance DataFrame_eq_dec : EqDecision DataFrame.
Proof. solve_decision. Defined.

Definition cell_of (x : option float) : cell :=
  match x with
  | Some v => Num v
  | None => NaN
  end.

(** [pd.isna] *)
Definition isna (c : cell) : bool :=
  match c with
  | NaN => true
  | _ => false
  end.

Definition is_str (c : cell) : bool :=
  match c with
  | Str _ => true
  | _ => false
  end.

(** [df.columns] *)
Definition columns (df : DataFrame) : list string := (data df).*1.

(** [len(df)] *)
Definition len (df : DataFrame) : nat :=
  match data df with
  | [] => 0
  | (_, s) :: _ => length s
  end.

(** Every column has the length of the index. *)
Definition rectangular (df : DataFrame) : bool :=
  forallb (λ c : string * Series, bool_decide (length c.2 = len df)) (data df).

(** [name in df.columns] *)
Definition contains (df : DataFrame) (name : string) : bool :=
  bool_decide (name ∈ columns df).

Fixpoint lookup_column (name : string) (cols : list (string * Series)) : option Series :=
  match cols with
  | [] => None
  | (n, s) :: cols => if bool_decide (n = name) then Some s else lookup_column name cols
  end.

(** [df[name]] *)
Definition getitem (df : DataFrame) (name : string) : result Series :=
  match lookup_column name (data df) with
  | Some s => Ok s
  | None => Raise (KeyError name)
  end.

Fixpoint assign_column (name : string) (s : Series) (cols : list (string * Series))
  : list (string * Series) :=
  match cols with
  | [] => [(name, s)]
  | (n, c) :: cols =>
      if bool_decide (n = name) then (n, s) :: cols
      else (n, c) :: assign_column name s cols
  end.

(** [df[name] = s]: an existing column is replaced where it stands, a new one
    is added last. *)
Definition setitem (df : DataFrame) (name : string) (s : Series) : DataFrame :=
  mkDataFrame (assign_column name s (data df)).

(** [s.isnull().sum()] *)
Definition isnull_sum (s : Series) : nat := length (filter (λ c, isna c) s).

(** [df.isnull().sum()], column by column *)
Definition isnull_sums (df : DataFrame) : list (string * nat) :=
  (λ c : string * Series, (c.1, isnull_sum c.2)) <$> data df.

(** [df.isnull().sum().sum()] *)
Definition isnull_total (df : DataFrame) : nat := sum_list (isnull_sums df).*2.

(** [df.drop(columns=names)] *)
Definition drop_columns (df : DataFrame) (names : list string) : DataFrame :=
  mkDataFrame (filter (λ c : string * Series, c.1 ∉ names) (data df)).

(** [s.fillna(value)] *)
Definition fillna (s : Series) (value : cell) : Series :=
  (λ c, if isna c then value else c) <$> s.

(** [s.apply(f)] *)
Definition series_apply (s : Series) (f : cell → cell) : Series := f <$> s.

(** The floats of a numeric column, missing cells skipped. *)
Definition float_values (s : Series) : list float :=
  omap (λ c, match c with Num x => Some x | _ => None end) s.

Definition numeric (s : Series) : bool := forallb (λ c, negb (is_str c)) s.

Fixpoint insert_sorted (x : float) (l : list float) : list float :=
  match l with
  | [] => [x]
  | y :: l' => if fle x y then x :: l else y :: insert_sorted x l'
  end.

Definition sort_floats (l : list float) : list float := foldr insert_sorted [] l.

Definition half : Qc := Q2Qc (1 # 2).

(** The median of sorted values: the middle one, or the mean of the two
    middle ones. *)
Definition median_sorted (xs : list float) : option float :=
  let n := length xs in
  if bool_decide (n = 0%nat) then None
  else if Nat.odd n then xs !! (n / 2)%nat
  else a ← xs !! (n / 2 - 1)%nat; b ← xs !! (n / 2)%nat;
       s ← fadd a b; fmul s (Fin half).

(** [s.median()], missing cells skipped *)
Definition median (s : Series) : result (option float) :=
  if numeric s then Ok (median_sorted (sort_floats (float_values s)))
  else Raise TypeError.

(** numpy's linear interpolation between two neighbours. *)
Definition lerp (a b : float) (t : Qc) : option float :=
  d ← fsub b a;
  if bool_decide (t < half)%Qc then m ← fmul d (Fin t); fadd a m
  else m ← fmul d (Fin (1 - t)%Qc); fsub b m.

Definition quantile_sorted (xs : list float) (q : Qc) : option float :=
  let n := length xs in
  if bool_decide (n = 0%nat) then None
  else
    let pos := (Qc_of_nat (n - 1) * q)%Qc in
    let i := Qfloor pos in
    let t := (pos - Qc_of_Z i)%Qc in
    a ← xs !! Z.to_nat i;
    b ← xs !! Nat.min (Z.to_nat i + 1) (n - 1);
    lerp a b t.

(** [s.quantile(q)] with the default linear interpolation, missing cells
    skipped *)
Definition quantile (s : Series) (q : Qc) : result (option float) :=
  if numeric s then Ok (quantile_sorted (sort_floats (float_values s)) q)
  else Raise TypeError.

Definition fmin (a b : float) : float := if fle a b then a else b.
Definition fmax (a b : float) : float := if fle a b then b else a.

Definition clip_lower (lower : option float) (c : cell) : cell :=
  match lower, c with
  | Some lo, Num x => if fle lo x then c else Num lo
  | _, _ => c
  end.

Definition clip_upper (upper : option float) (c : cell) : cell :=
  match upper, c with
  | Some hi, Num x => if fle x hi then c else Num hi
  | _, _ => c
  end.

(** [np.clip(s, lower, upper)], which is [s.clip(lower, upper)]: a NaN
    threshold does not clip, two thresholds are put in order, a missing cell
    stays missing. *)
Definition clip (s : Series) (lower upper : option float) : Series :=
  let '(lo, hi) :=
    match lower, upper with
    | Some l, Some u => (Some (fmin l u), Some (fmax l u))
    | _, _ => (lower, upper)
    end in
  (λ c, clip_upper hi (clip_lower lo c)) <$> s.

(** [(s < lower) | (s > upper)], cell by cell; a comparison with NaN is
    false. *)
Definition outside (lower upper : option float) (c : cell) : bool :=
  match c with
  | Num x =>
      match lower with Some lo => flt x lo | None => false end
      || match upper with Some hi => flt hi x | None => false end
  | _ => false
  end.

(** [bins.searchsorted(x, side='left')] for increasing bins *)
Definition searchsorted_left (bins : list float) (x : float) : nat :=
  length (filter (λ b, flt b x) bins).

(** One cell of [pd.cut(s, bins, labels)] with the default [right=True] and
    [include_lowest=False]. *)
Definition cut_cell (bins : list float) (labels : list string) (c : cell) : cell :=
  match c with
  | Num x =>
      let ids := searchsorted_left bins x in
      if bool_decide (ids = 0%nat) || bool_decide (ids = length bins) then NaN
      else match labels !! (ids - 1)%nat with
           | Some l => Str l
           | None => NaN
           end
  | _ => NaN
  end.

(** [pd.cut(s, bins=bins, labels=labels)] *)
Definition pd_cut (s : Series) (bins : list float) (labels : list string) : result Series :=
  if numeric s then Ok (cut_cell bins labels <$> s) else Raise TypeError.

(** The rows of a frame, by position. *)
Definition row (df : DataFrame) (i : nat) : list cell :=
  (λ c : string * Series, default NaN (c.2 !! i)) <$> data df.

Definition rows (df : DataFrame) : list (list cell) := row df <$> seq 0 (len df).

(** [df.duplicated()]: a row is marked when an equal row stands before it. *)
Fixpoint duplicated_from (seen : list (list cell)) (rs : list (list cell)) : list bool :=
  match rs with
  | [] => []
  | r :: rs => bool_decide (r ∈ seen) :: duplicated_from (r :: seen) rs
  end.

Definition duplicated (df : DataFrame) : list bool := duplicated_from [] (rows df).

(** [s[mask]] *)
Fixpoint mask_select {A} (mask : list bool) (s : list A) : list A :=
  match mask, s with
  | m :: mask, x :: s => if m then x :: mask_select mask s else mask_select mask s
  | _, _ => []
  end.

(** [df.drop_duplicates()] is [df[~df.duplicated()]]. *)
Definition drop_duplicates (df : DataFrame) : DataFrame :=
  let keep := negb <$> duplicated df in
  mkDataFrame ((λ c : string * Series, (c.1, mask_select keep c.2)) <$> data df).

(** [df.select_dtypes(include=[np.number]).columns] *)
Definition numeric_columns (df : DataFrame) : list string :=
  (filter (λ c : string * Series, numeric c.2) (data df)).*1.

(** [df.select_dtypes(include=['object']).columns] *)
Definition object_columns (df : DataFrame) : list string :=
  (filter (λ c : string * Series, ¬ numeric c.2) (data df)).*1.

(** ** Rounding and option arithmetic *)

(** A float expression that may be NaN: NaN propagates. *)
Definition nadd (a b : option float) : option float := x ← a; y ← b; fadd x y.
Definition nsub (a b : option float) : option float := x ← a; y ← b; fsub x y.
Definition nmul (a b : option float) : option float := x ← a; y ← b; fmul x y.

(** Rounding to the nearest integer, a tie to the even one. *)
Definition round_half_even (x : Qc) : Z :=
  let f := Qfloor x in
  let d := (x - Qc_of_Z f)%Qc in
  if bool_decide (d < half)%Qc then f
  else if bool_decide (half < d)%Qc then f + 1
  else if Z.even f then f else f + 1.

(** [round(x, ndigits)] *)
Definition round (x : Qc) (ndigits : nat) : Qc :=
  let scale := Qc_of_Z (10 ^ Z.of_nat ndigits) in
  (Qc_of_Z (round_half_even (x * scale)) / scale)%Qc.

(** ** The store, the log and the monad of method calls *)

Definition ref := nat.

Record quality_metrics := mkMetrics {
  total_rows : nat;
  total_columns : nat;
  completeness_score : Qc;
  duplicate_rows : nat;
  numeric_columns_count : nat;
  categorical_columns_count : nat;
  total_missing_values : nat;
  missing_value_percentage : Qc
}.

(** The outcome of one validation rule, as its message reports it. *)
Inductive check :=
  | RowCountFailed (rows : nat) (min_rows : Z)
  | RowCountPassed (rows : nat)
  | RequiredColumnsMissing (missing_columns : list string)
  | RequiredColumnsPresent
  | MissingPercentageHigh (missing_percentage : option Qc)
  | MissingPercentagePassed (missing_percentage : option Qc)
  | NoNumericColumns.

Global Instance check_eq_dec : EqDecision check.
Proof. solve_decision. Defined.

(** What the messages of the logger carry. *)
Inductive details :=
  | RemovedMissing (n : Z)
  | DroppedColumns (names : list string)
  | RemovedDuplicates (n : Z)
  | StandardizedColumns (n : nat)
  | ConvertedColumns
  | OutliersHandled (outlier_report : list (string * nat))
  | CreatedFeatures
  | ReportGenerated.

Inductive event :=
  | step_start (step_name : string)
  | step_complete (step_name : string) (d : details)
  | log_warning_event (d : details)
  | log_metrics_event (m : quality_metrics)
  | validation_event (is_valid : bool)
  | check_passed_event (c : check)
  | check_warning_event (c : check)
  | check_failed_event (c : check).

Record state := mkState { heap : list DataFrame; log : list event }.

Definition M (A : Type) : Type := state → result A * state.

Definition ret {A} (a : A) : M A := λ s, (Ok a, s).

Definition bind {A B} (m : M A) (k : A → M B) : M B :=
  λ s, match m s with
       | (Ok a, s') => k a s'
       | (Raise e, s') => (Raise e, s')
       end.

Notation "'let!' x ':=' m 'in' k" := (bind m (λ x, k))
  (at level 10, x name, m at level 100, k at level 200).
Notation "m ;; k" := (bind m (λ _, k))
  (at level 100, k at level 200, right associativity).

(** An expression that may raise. *)
Definition lift {A} (r : result A) : M A := λ s, (r, s).

Definition deref (s : state) (r : ref) : DataFrame :=
  default (mkDataFrame []) (heap s !! r).

Definition read (r : ref) : M DataFrame := λ s, (Ok (deref s r), s).

Definition alloc (df : DataFrame) : M ref :=
  λ s, (Ok (length (heap s)), mkState (heap s ++ [df]) (log s)).

Definition write (r : ref) (df : DataFrame) : M unit :=
  λ s, (Ok tt, mkState (<[r := df]> (heap s)) (log s)).

Definition emit (e : event) : M unit :=
  λ s, (Ok tt, mkState (heap s) (log s ++ [e])).

Fixpoint for_each {A} (l : list A) (body : A → M unit) : M unit :=
  match l with
  | [] => ret tt
  | x :: l => body x;; for_each l body
  end.

(** A loop that updates a local variable. *)
Fixpoint for_fold {A S} (l : list A) (acc : S) (body : S → A → M S) : M S :=
  match l with
  | [] => ret acc
  | x :: l => let! acc' := body acc x in for_fold l acc' body
  end.

(** The DataFrame methods, through a reference. *)
Definition df_copy (df : ref) : M ref := let! d := read df in alloc d.
Definition df_columns (df : ref) : M (list string) := let! d := read df in ret (columns d).
Definition df_len (df : ref) : M nat := let! d := read df in ret (len d).
Definition df_contains (df : ref) (name : string) : M bool :=
  let! d := read df in ret (contains d name).
Definition df_getitem (df : ref) (name : string) : M Series :=
  let! d := read df in lift (getitem d name).
Definition df_setitem (df : ref) (name : string) (s : Series) : M unit :=
  let! d := read df in write df (setitem d name s).
Definition df_isnull_sums (df : ref) : M (list (string * nat)) :=
  let! d := read df in ret (isnull_sums d).
Definition df_isnull_total (df : ref) : M nat :=
  let! d := read df in ret (isnull_total d).
Definition df_drop (df : ref) (names : list string) : M ref :=
  let! d := read df in alloc (drop_columns d names).
Definition df_drop_duplicates (df : ref) : M ref :=
  let! d := read df in alloc (drop_duplicates d).

(** The logger ([utils/logger.py]). *)
Definition log_step_start (step_name : string) : M unit := emit (step_start step_name).
Definition log_step_complete (step_name : string) (d : details) : M unit :=
  emit (step_complete step_name d).
Definition log_warning (d : details) : M unit := emit (log_warning_event d).
Definition log_metrics (m : quality_metrics) : M unit := emit (log_metrics_event m).

(** A call on a frame alone in the store, and the frame it returns. *)
Definition init (df : DataFrame) : state := mkState [df] [].

Definition returned (r : result ref * state) : result DataFrame :=
  match r with
  | (Ok p, s) => Ok (deref s p)
  | (Raise e, _) => Raise e
  end.

(** ** [config/settings.py] *)

Record DataCleaningConfig := mkConfig {
  DATASET_NAME : string;
  LOCAL_DATA_PATH : string;
  CLEANED_DATA_PATH : string;
  MISSING_THRESHOLD : Qc;
  OUTLIER_IQR_MULTIPLIER : Qc;
  TEXT_COLUMNS : list string;
  NUMERICAL_COLUMNS : list string;
  COST_BINS : list float;
  COST_LABELS : list string;
  RATING_BINS : list float;
  RATING_LABELS : list string
}.

Definition config : DataCleaningConfig := {|
  DATASET_NAME := "himanshupoddar/zomato-bangalore-restaurants";
  LOCAL_DATA_PATH := "data/raw";
  CLEANED_DATA_PATH := "data/processed";
  MISSING_THRESHOLD := Q2Qc (1 # 2);
  OUTLIER_IQR_MULTIPLIER := Q2Qc (3 # 2);
  TEXT_COLUMNS := ["name"; "location"; "rest_type"; "cuisines"; "dish_liked"];
  NUMERICAL_COLUMNS := ["rate"; "approx_cost(for two people)"];
  COST_BINS := [of_Z 0; of_Z 500; of_Z 1000; of_Z 2000; Inf false];
  COST_LABELS := ["Budget"; "Moderate"; "Expensive"; "Premium"];
  RATING_BINS := [of_Z 0; of_Z 2; of_Z 3; of_Z 4; of_Z 5];
  RATING_LABELS := ["Poor"; "Average"; "Good"; "Excellent"]
|}.

(** ** [src/data_cleaner.py] *)

Definition rate_column : string := "rate".
Definition cost_column : string := "approx_cost(for two people)".
Definition cuisines_column : string := "cuisines".
Definition dish_liked_column : string := "dish_liked".

(** [re.search] of the pattern of [_extract_rating] (digits, an optional dot,
    optional digits, all in group 1): group 1 of the leftmost match, which is
    the first run of digits with, when a dot follows it, the dot and the
    digits after the dot. *)
Fixpoint re_search_number (s : string) : option string :=
  match s with
  | "" => None
  | String c s' =>
      if is_digit c then
        let '(d1, r1) := span_digits s in
        match r1 with
        | String "." r => Some (d1 +:+ "." +:+ (span_digits r).1)
        | _ => Some d1
        end
      else re_search_number s'
  end.

(** [float(value)] for the value of a cell *)
Definition float_of_cell (c : cell) : result (option float) :=
  match c with
  | Str s => float_of_string s
  | Num x => Ok (Some x)
  | NaN => Ok None
  end.

(** [except (ValueError, TypeError): return np.nan] *)
Definition except_value_type_error (r : result (option float)) : result cell :=
  match r with
  | Ok x => Ok (cell_of x)
  | Raise ValueError | Raise TypeError => Ok NaN
  | Raise e => Raise e
  end.

Definition _extract_rating (rate_value : cell) : result cell :=
  if isna rate_value then Ok NaN
  else except_value_type_error
         match rate_value with
         | Str s =>
             match re_search_number s with
             | Some group1 => float_of_string group1
             | None => float_of_cell rate_value
             end
         | _ => float_of_cell rate_value
         end.

Definition _clean_cost (cost_value : cell) : result cell :=
  if isna cost_value then Ok NaN
  else except_value_type_error
         match cost_value with
         | Str s => float_of_string (remove_commas s)
         | _ => float_of_cell cost_value
         end.

(** [s.apply(f)] for a function that may raise *)
Fixpoint apply_raising (s : Series) (f : cell → result cell) : result Series :=
  match s with
  | [] => Ok []
  | c :: s => result_bind (f c) (λ v, result_bind (apply_raising s f) (λ vs, Ok (v :: vs)))
  end.

Definition threshold_exceeded (threshold : Qc) (count : nat) : bool :=
  bool_decide (threshold < Qc_of_nat count)%Qc.

Definition handle_missing_values (df : ref) : M ref :=
  log_step_start "Missing Values Handling";;
  let! df_cleaned := df_copy df in
  let! initial_missing := df_isnull_total df_cleaned in
  let! n := df_len df_cleaned in
  let threshold := (Qc_of_nat n * MISSING_THRESHOLD config)%Qc in
  let! counts := df_isnull_sums df_cleaned in
  let columns_to_drop :=
    (filter (λ c : string * nat, threshold_exceeded threshold c.2) counts).*1 in
  let! df_cleaned :=
    match columns_to_drop with
    | [] => ret df_cleaned
    | _ => let! dropped := df_drop df_cleaned columns_to_drop in
           log_warning (DroppedColumns columns_to_drop);;
           ret dropped
    end in
  let! cost := df_getitem df_cleaned cost_column in
  let! cost_median := lift (median cost) in
  let imputation_strategy :=
    [ (rate_column, Str "0 out of 5");
      (cost_column, cell_of cost_median);
      (cuisines_column, Str "Unknown");
      (dish_liked_column, Str "Not Specified") ] in
  for_each imputation_strategy (λ '(column, strategy),
    let! present := df_contains df_cleaned column in
    if present : bool then
      let! s := df_getitem df_cleaned column in
      df_setitem df_cleaned column (fillna s strategy)
    else ret tt);;
  let! final_missing := df_isnull_total df_cleaned in
  log_step_complete "Missing Values Handling"
    (RemovedMissing (Z.of_nat initial_missing - Z.of_nat final_missing));;
  ret df_cleaned.

Definition remove_duplicates (df : ref) : M ref :=
  log_step_start "Duplicate Removal";;
  let! initial_rows := df_len df in
  let! df_cleaned := df_drop_duplicates df in
  let! final_rows := df_len df_cleaned in
  let duplicates_removed := Z.of_nat initial_rows - Z.of_nat final_rows in
  log_step_complete "Duplicate Removal" (RemovedDuplicates duplicates_removed);;
  ret df_cleaned.

Definition correct_data_types (df : ref) : M ref :=
  log_step_start "Data Type Correction";;
  let! df_cleaned := df_copy df in
  let! has_rate := df_contains df_cleaned rate_column in
  (if has_rate : bool then
     let! rate := df_getitem df_cleaned rate_column in
     let! extracted := lift (apply_raising rate _extract_rating) in
     let! rate' := df_getitem df_cleaned rate_column in
     let! extracted' := lift (apply_raising rate' _extract_rating) in
     let! m := lift (median extracted') in
     df_setitem df_cleaned "rate_clean" (fillna extracted (cell_of m))
   else ret tt);;
  let! has_cost := df_contains df_cleaned cost_column in
  (if has_cost : bool then
     let! cost := df_getitem df_cleaned cost_column in
     let! cleaned := lift (apply_raising cost _clean_cost) in
     df_setitem df_cleaned "cost_for_two" cleaned
   else ret tt);;
  log_step_complete "Data Type Correction" ConvertedColumns;;
  ret df_cleaned.

Definition numerical_cols : list string := ["rate_clean"; "cost_for_two"].

Definition quarter : Qc := Q2Qc (1 # 4).
Definition three_quarters : Qc := Q2Qc (3 # 4).

Definition handle_outliers (df : ref) : M ref :=
  log_step_start "Outlier Handling";;
  let! df_cleaned := df_copy df in
  let! outlier_report :=
    for_fold numerical_cols [] (λ outlier_report col,
      let! present := df_contains df_cleaned col in
      if present : bool then
        let! s := df_getitem df_cleaned col in
        let! Q1 := lift (quantile s quarter) in
        let! Q3 := lift (quantile s three_quarters) in
        let IQR := nsub Q3 Q1 in
        let k := Some (Fin (OUTLIER_IQR_MULTIPLIER config)) in
        let lower_bound := nsub Q1 (nmul k IQR) in
        let upper_bound := nadd Q3 (nmul k IQR) in
        let outliers_count := length (filter (λ c, outside lower_bound upper_bound c) s) in
        df_setitem df_cleaned col (clip s lower_bound upper_bound);;
        ret (outlier_report ++ [(col, outliers_count)])
      else ret outlier_report) in
  log_step_complete "Outlier Handling" (OutliersHandled outlier_report);;
  ret df_cleaned.

Section Pipeline.

(** [repr] of a float, as [str(x)] and [astype(str)] print it.  The digits
    Python prints depend on the binary representation; the model leaves the
    function open. *)
Variable float_repr : float → string.

(** [str(value)] for the value of a cell *)
Definition str_of_cell (c : cell) : string :=
  match c with
  | NaN => "nan"
  | Str s => s
  | Num x => float_repr x
  end.

(** [s.astype(str)] *)
Definition astype_str (s : Series) : Series := (λ c, Str (str_of_cell c)) <$> s.

(** A method of the [.str] accessor: a cell that is not a string gives NaN. *)
Definition str_method (f : string → string) (s : Series) : Series :=
  (λ c, match c with Str x => Str (f x) | _ => NaN end) <$> s.

Definition standardize_text_columns (df : ref) : M ref :=
  log_step_start "Text Standardization";;
  let! df_cleaned := df_copy df in
  for_each (TEXT_COLUMNS config) (λ column,
    let! present := df_contains df_cleaned column in
    if present : bool then
      let! s := df_getitem df_cleaned column in
      df_setitem df_cleaned column (str_method title (str_method strip (astype_str s)))
    else ret tt);;
  log_step_complete "Text Standardization"
    (StandardizedColumns (length (TEXT_COLUMNS config)));;
  ret df_cleaned.

(** ** [src/feature_engineer.py] *)

Definition _count_cuisines (cuisines_str : cell) : cell :=
  if isna cuisines_str
     || bool_decide (cuisines_str ∈ [Str "Unknown"; Str "Not Specified"])
  then Num (of_nat 0)
  else Num (of_nat (length (split_commas (str_of_cell cuisines_str)))).

Definition create_features (df : ref) : M ref :=
  log_step_start "Feature Engineering";;
  let! df_with_features := df_copy df in
  let! has_cuisines := df_contains df_with_features cuisines_column in
  (if has_cuisines : bool then
     let! cuisines := df_getitem df_with_features cuisines_column in
     df_setitem df_with_features "num_cuisines" (series_apply cuisines _count_cuisines)
   else ret tt);;
  let! has_cost := df_contains df_with_features "cost_for_two" in
  (if has_cost : bool then
     let! cost := df_getitem df_with_features "cost_for_two" in
     let! category := lift (pd_cut cost (COST_BINS config) (COST_LABELS config)) in
     df_setitem df_with_features "cost_category" category
   else ret tt);;
  let! has_rate := df_contains df_with_features "rate_clean" in
  (if has_rate : bool then
     let! rate := df_getitem df_with_features "rate_clean" in
     let! category := lift (pd_cut rate (RATING_BINS config) (RATING_LABELS config)) in
     df_setitem df_with_features "rating_category" category
   else ret tt);;
  log_step_complete "Feature Engineering" CreatedFeatures;;
  ret df_with_features.

(** ** [src/quality_checker.py]

    The methods read their frames and write none.  The memory footprint and
    the dtype names of the report depend on the representation in memory and
    are left out. *)

Definition _calculate_quality_metrics (df : DataFrame) : quality_metrics :=
  let total_cells := (len df * length (columns df))%nat in
  let missing_cells := isnull_total df in
  {| total_rows := len df;
     total_columns := length (columns df);
     completeness_score :=
       if bool_decide (0 < total_cells)%nat
       then round (1 - Qc_of_nat missing_cells / Qc_of_nat total_cells)%Qc 4
       else 0%Qc;
     duplicate_rows := 0;
     numeric_columns_count := length (numeric_columns df);
     categorical_columns_count := length (object_columns df);
     total_missing_values := missing_cells;
     missing_value_percentage :=
       if bool_decide (0 < total_cells)%nat
       then round (Qc_of_nat missing_cells / Qc_of_nat total_cells * Qc_of_Z 100)%Qc 2
       else 0%Qc |}.

Record cleaning_impact := mkImpact {
  rows_removed : Z;
  columns_removed : Z;
  missing_values_removed : Z;
  completeness_improvement : Qc;
  original_completeness : Qc;
  final_completeness : Qc
}.

Definition completeness (df : DataFrame) : Qc :=
  if bool_decide (0 < len df)%nat
  then (1 - Qc_of_nat (isnull_total df)
            / Qc_of_nat (len df * length (columns df)))%Qc
  else 0%Qc.

Definition _calculate_cleaning_impact (original_df cleaned_df : DataFrame) : cleaning_impact :=
  let original_missing := isnull_total original_df in
  let cleaned_missing := isnull_total cleaned_df in
  let original_completeness := completeness original_df in
  let cleaned_completeness := completeness cleaned_df in
  {| rows_removed := Z.of_nat (len original_df) - Z.of_nat (len cleaned_df);
     columns_removed :=
       Z.of_nat (length (columns original_df)) - Z.of_nat (length (columns cleaned_df));
     missing_values_removed := Z.of_nat original_missing - Z.of_nat cleaned_missing;
     completeness_improvement := round (cleaned_completeness - original_completeness)%Qc 4;
     original_completeness := round original_completeness 4;
     final_completeness := round cleaned_completeness 4 |}.

Record dataset_info := mkInfo {
  shape : nat * nat;
  info_columns : list string;
  sample_size : nat
}.

Definition _get_dataset_info (df : DataFrame) : dataset_info :=
  {| shape := (len df, length (columns df));
     info_columns := columns df;
     sample_size := Nat.min 3 (len df) |}.

Record quality_report := mkReport {
  data_quality_metrics : quality_metrics;
  report_cleaning_impact : cleaning_impact;
  final_dataset_info : dataset_info
}.

Definition generate_quality_report (original_df cleaned_df : ref) : M quality_report :=
  log_step_start "Quality Report Generation";;
  let! original := read original_df in
  let! cleaned := read cleaned_df in
  let report :=
    {| data_quality_metrics := _calculate_quality_metrics cleaned;
       report_cleaning_impact := _calculate_cleaning_impact original cleaned;
       final_dataset_info := _get_dataset_info cleaned |} in
  log_metrics (data_quality_metrics report);;
  log_step_complete "Quality Report Generation" ReportGenerated;;
  ret report.










(** ** [main.py]: the phases of [run_pipeline] between loading and saving *)

Definition run_pipeline (original_df : ref) : M (ref * quality_report) :=
  let! df_cleaned := handle_missing_values original_df in
  let! df_cleaned := remove_duplicates df_cleaned in
  let! df_cleaned := standardize_text_columns df_cleaned in
  let! df_cleaned := correct_data_types df_cleaned in
  let! df_cleaned := handle_outliers df_cleaned in
  let! cleaned_df := create_features df_cleaned in
  let! quality_report := generate_quality_report original_df cleaned_df in
  ret (cleaned_df, quality_report).


(** ** A call on a frame, and the frame-level reading of each method

    [call m df] runs the method on a store that holds [df] alone and gives
    the frame behind the returned reference.  The [_frame] functions state
    what a method computes as a function of the frame it is given; the
    lemmas below prove that the methods compute them. *)

Definition call (method : ref → M ref) (df : DataFrame) : result DataFrame :=
  returned (method 0%nat (init df)).

Definition logged {A} (method : ref → M A) (df : DataFrame) : list event :=
  log (method 0%nat (init df)).2.

(** [if name in df.columns: df[name] = f(df[name])] *)
Definition update_column (name : string) (f : Series → Series) (d : DataFrame) : DataFrame :=
  match lookup_column name (data d) with
  | Some s => setitem d name (f s)
  | None => d
  end.

Definition sparse_columns (d : DataFrame) : list string :=
  (filter (λ c : string * nat,
       threshold_exceeded (Qc_of_nat (len d) * MISSING_THRESHOLD config)%Qc c.2)
     (isnull_sums d)).*1.

Definition impute (cost_median : option float) (d : DataFrame) : DataFrame :=
  update_column dish_liked_column (λ s, fillna s (Str "Not Specified"))
    (update_column cuisines_column (λ s, fillna s (Str "Unknown"))
       (update_column cost_column (λ s, fillna s (cell_of cost_median))
          (update_column rate_column (λ s, fillna s (Str "0 out of 5")) d))).

Definition handle_missing_values_frame (df : DataFrame) : result DataFrame :=
  let d := drop_columns df (sparse_columns df) in
  result_bind (getitem d cost_column) (λ cost,
  result_bind (median cost) (λ cost_median,
  Ok (impute cost_median d))).

Definition standardize_series (s : Series) : Series :=
  str_method title (str_method strip (astype_str s)).

Definition standardize_text_columns_frame (df : DataFrame) : DataFrame :=
  foldl (λ d column, update_column column standardize_series d) df (TEXT_COLUMNS config).

(** The rating column of [correct_data_types]: the extracted ratings, the
    missing ones filled with the median of the extracted ones. *)
Definition rate_clean_of (rate : Series) : result Series :=
  result_bind (apply_raising rate _extract_rating) (λ extracted,
  result_bind (median extracted) (λ m,
  Ok (fillna extracted (cell_of m)))).

Definition correct_data_types_frame (df : DataFrame) : result DataFrame :=
  result_bind
    match lookup_column rate_column (data df) with
    | Some rate => result_bind (rate_clean_of rate) (λ s, Ok (setitem df "rate_clean" s))
    | None => Ok df
    end (λ d,
  match lookup_column cost_column (data d) with
  | Some cost =>
      result_bind (apply_raising cost _clean_cost) (λ s, Ok (setitem d "cost_for_two" s))
  | None => Ok d
  end).

(** The thresholds of [handle_outliers] for a column. *)
Definition outlier_bounds (s : Series) : result (option float * option float) :=
  result_bind (quantile s quarter) (λ Q1,
  result_bind (quantile s three_quarters) (λ Q3,
  let IQR := nsub Q3 Q1 in
  let k := Some (Fin (OUTLIER_IQR_MULTIPLIER config)) in
  Ok (nsub Q1 (nmul k IQR), nadd Q3 (nmul k IQR)))).

Definition outliers_count (s : Series) (bounds : option float * option float) : nat :=
  length (filter (λ c, outside bounds.1 bounds.2 c) s).

(** One round of the loop of [handle_outliers]. *)
Definition handle_outliers_column (col : string)
    (acc : result (DataFrame * list (string * nat))) : result (DataFrame * list (string * nat)) :=
  result_bind acc (λ '(d, outlier_report),
  match lookup_column col (data d) with
  | Some s =>
      result_bind (outlier_bounds s) (λ bounds,
      Ok (setitem d col (clip s bounds.1 bounds.2),
          outlier_report ++ [(col, outliers_count s bounds)]))
  | None => Ok (d, outlier_report)
  end).

Definition handle_outliers_frame (df : DataFrame) : result (DataFrame * list (string * nat)) :=
  handle_outliers_column "cost_for_two" (handle_outliers_column "rate_clean" (Ok (df, []))).

Definition add_category (source target : string) (bins : list float) (labels : list string)
    (d : DataFrame) : result DataFrame :=
  match lookup_column source (data d) with
  | Some s => result_bind (pd_cut s bins labels) (λ category, Ok (setitem d target category))
  | None => Ok d
  end.

Definition add_num_cuisines (d : DataFrame) : DataFrame :=
  match lookup_column cuisines_column (data d) with
  | Some s => setitem d "num_cuisines" (series_apply s _count_cuisines)
  | None => d
  end.

Definition create_features_frame (df : DataFrame) : result DataFrame :=
  result_bind
    (add_category "cost_for_two" "cost_category" (COST_BINS config) (COST_LABELS config)
       (add_num_cuisines df))
    (add_category "rate_clean" "rating_category" (RATING_BINS config) (RATING_LABELS config)).

(** The intervals of the two binnings, as comparisons. *)
Definition in_interval (low high x : float) : bool := flt low x && fle x high.

Definition cost_label (c : cell) : cell :=
  match c with
  | Num x =>
      if in_interval (of_Z 0) (of_Z 500) x then Str "Budget"
      else if in_interval (of_Z 500) (of_Z 1000) x then Str "Moderate"
      else if in_interval (of_Z 1000) (of_Z 2000) x then Str "Expensive"
      else if in_interval (of_Z 2000) (Inf false) x then Str "Premium"
      else NaN
  | _ => NaN
  end.

Definition rating_label (c : cell) : cell :=
  match c with
  | Num x =>
      if in_interval (of_Z 0) (of_Z 2) x then Str "Poor"
      else if in_interval (of_Z 2) (of_Z 3) x then Str "Average"
      else if in_interval (of_Z 3) (of_Z 4) x then Str "Good"
      else if in_interval (of_Z 4) (of_Z 5) x then Str "Excellent"
      else NaN
  | _ => NaN
  end.

(** A column that, when the frame has it, is numeric. *)
Definition numeric_if_present (df : DataFrame) (name : string) : bool :=
  match lookup_column name (data df) with
  | Some s => numeric s
  | None => true
  end.

(** ** Definitions the proofs use *)

Local Open Scope nat_scope.

(** [frames n m Q]: run on a store with at least [n] frames, [m] leaves the
    first [n] frames as they are, and a value it returns satisfies [Q]. *)
Definition frames {A} (n : nat) (m : M A) (Q : A → Prop) : Prop :=
  ∀ s, n ≤ length (heap s) →
    take n (heap (m s).2) = take n (heap s)
    ∧ n ≤ length (heap (m s).2)
    ∧ ∀ a, (m s).1 = Ok a → Q a.

(** The effect of [update_column] on the list of columns. *)
Fixpoint map_first (name : string) (f : Series → Series) (cols : list (string * Series))
  : list (string * Series) :=
  match cols with
  | [] => []
  | (n, s) :: cols =>
      if bool_decide (n = name) then (n, f s) :: cols else (n, s) :: map_first name f cols
  end.

(** Updates of the columns of a list of distinct names. *)
Definition map_columns (names : list string) (f : Series → Series)
    (cols : list (string * Series)) : list (string * Series) :=
  foldl (λ cols name, map_first name f cols) cols names.



(** The column list after the four imputations. *)
Definition impute_columns (m : option float) (cols : list (string * Series))
  : list (string * Series) :=
  map_first dish_liked_column (λ s, fillna s (Str "Not Specified"))
    (map_first cuisines_column (λ s, fillna s (Str "Unknown"))
       (map_first cost_column (λ s, fillna s (cell_of m))
          (map_first rate_column (λ s, fillna s (Str "0 out of 5")) cols))).



(** The first [n] rows of a list of columns. *)
Definition rows_of (cols : list (string * Series)) (n : nat) : list (list cell) :=
  (λ i, (λ c : string * Series, default NaN (c.2 !! i)) <$> cols) <$> seq 0 n.

(** The first row of a list of columns. *)
Definition heads (cols : list (string * Series)) : list cell :=
  (λ c : string * Series, default NaN (c.2 !! 0)) <$> cols.

(** The columns without their first row. *)
Definition tails (cols : list (string * Series)) : list (string * Series) :=
  (λ c : string * Series, (c.1, tail c.2)) <$> cols.

(** The columns under a mask. *)
Definition select_columns (mask : list bool) (cols : list (string * Series))
  : list (string * Series) :=
  (λ c : string * Series, (c.1, mask_select mask c.2)) <$> cols.

(** The number of rows a mask keeps. *)
Definition count_true (mask : list bool) : nat := length (filter (λ b : bool, b) mask).

(** The rows that [duplicated_from] does not mark. *)
Definition kept_from (seen rs : list (list cell)) : list (list cell) :=
  mask_select (negb <$> duplicated_from seen rs) rs.




(** A string whose first character is a digit. *)
Definition starts_with_digit (s : string) : bool :=
  match s with
  | String c _ => is_digit c
  | "" => false
  end.



(** Increasing order of a list of floats. *)
Fixpoint sorted (l : list float) : bool :=
  match l with
  | [] => true
  | x :: l' => forallb (fle x) l' && sorted l'
  end.

(** [np.clip] with the thresholds of [handle_outliers] *)
Definition clip_column (s : Series) : Series :=
  match outlier_bounds s with
  | Ok bounds => clip s bounds.1 bounds.2
  | Raise _ => s
  end.

(** The entry of the outlier report for a column. *)
Definition report_entry (df : DataFrame) (col : string) : list (string * nat) :=
  match lookup_column col (data df) with
  | Some s =>
      match outlier_bounds s with
      | Ok bounds => [(col, outliers_count s bounds)]
      | Raise _ => []
      end
  | None => []
  end.

(** The transformations of the cleaner and of the feature engineer. *)
Definition transformations : list (ref → M ref) :=
  [handle_missing_values; remove_duplicates; standardize_text_columns;
   correct_data_types; handle_outliers; create_features].

(** The number of commas of a string. *)
Fixpoint count_commas (s : string) : nat :=
  match s with
  | "" => 0
  | String c s => (if bool_decide (c = ","%char) then 1 else 0) + count_commas s
  end.

(** ** Frames of the examples *)

(** A stand-in for [repr] in the examples. *)
Definition sample_repr (x : float) : string :=
  match x with
  | Fin _ => "0.0"
  | Inf false => "inf"
  | Inf true => "-inf"
  end.

Definition no_cost_column : DataFrame := mkDataFrame [("name", [Str "A"; Str "B"])].

Definition sparse_cost_column : DataFrame := mkDataFrame
  [("name", [Str "A"; Str "B"; Str "C"]);
   ("approx_cost(for two people)", [NaN; NaN; Num (of_Z 100)])].

Definition boundary_values : DataFrame := mkDataFrame
  [("cost_for_two", [Num (of_Z 0); Num (of_Z 500); Num (of_Z 1200); NaN]);
   ("rate_clean", [Num (of_Z 0); Num (of_Z 2); Num (Fin (Q2Qc (41 # 10))); NaN])].

Definition restaurants : DataFrame := mkDataFrame
  [("name", [Str " pizza hut "; Str "dominos"; Str " pizza hut "; NaN]);
   ("rate", [Str "4.1/5"; NaN; Str "4.1/5"; Str "3.8 /5"]);
   ("approx_cost(for two people)",
    [Num (of_Z 800); NaN; Num (of_Z 800); Num (of_Z 1200)]);
   ("cuisines", [Str "Italian, Pizza"; NaN; Str "Italian, Pizza"; Str "Cafe"])].







Definition sparse_dishes : DataFrame := mkDataFrame
  [("name", [Str "A"; Str "B"; Str "C"; NaN]);
   ("approx_cost(for two people)",
    [Num (of_Z 300); NaN; Num (of_Z 500); Num (of_Z 700)]);
   ("dish_liked", [NaN; NaN; NaN; Str "Pasta"])].

Local Open Scope Z_scope.

(** * Properties *)

(** ** Running the monad *)

Lemma bind_run {A B} (m : M A) (k : A → M B) (s : state) :
  bind m k s = match m s with
               | (Ok a, s') => k a s'
               | (Raise e, s') => (Raise e, s')
               end.
Proof. reflexivity. Qed.

Lemma emit_run e s : emit e s = (Ok tt, mkState (heap s) (log s ++ [e])).
Proof. reflexivity. Qed.

Lemma read_run r s : read r s = (Ok (deref s r), s).
Proof. reflexivity. Qed.

Lemma df_copy_run r s :
  df_copy r s = (Ok (length (heap s)), mkState (heap s ++ [deref s r]) (log s)).
Proof. reflexivity. Qed.

Lemma df_len_run r s : df_len r s = (Ok (len (deref s r)), s).
Proof. reflexivity. Qed.

Lemma df_contains_run r name s : df_contains r name s = (Ok (contains (deref s r) name), s).
Proof. reflexivity. Qed.

Lemma df_getitem_run r name s : df_getitem r name s = (getitem (deref s r) name, s).
Proof. reflexivity. Qed.

Lemma df_setitem_run r name c s :
  df_setitem r name c s
  = (Ok tt, mkState (<[r := setitem (deref s r) name c]> (heap s)) (log s)).
Proof. reflexivity. Qed.

Lemma df_isnull_sums_run r s : df_isnull_sums r s = (Ok (isnull_sums (deref s r)), s).
Proof. reflexivity. Qed.

Lemma df_isnull_total_run r s : df_isnull_total r s = (Ok (isnull_total (deref s r)), s).
Proof. reflexivity. Qed.

Lemma df_drop_run r names s :
  df_drop r names s
  = (Ok (length (heap s)), mkState (heap s ++ [drop_columns (deref s r) names]) (log s)).
Proof. reflexivity. Qed.

Lemma df_drop_duplicates_run r s :
  df_drop_duplicates r s
  = (Ok (length (heap s)), mkState (heap s ++ [drop_duplicates (deref s r)]) (log s)).
Proof. reflexivity. Qed.

Lemma lift_run {A} (r : result A) s : lift r s = (r, s).
Proof. reflexivity. Qed.

Lemma ret_run {A} (a : A) s : ret a s = (Ok a, s).
Proof. reflexivity. Qed.

(** ** Columns of a frame *)

Lemma contains_lookup d name :
  contains d name = bool_decide (is_Some (lookup_column name (data d))).
Proof.
  unfold contains, columns. destruct d as [cols]; simpl.
  apply bool_decide_ext.
  induction cols as [|[n c] cols IH]; simpl.
  - split; [by intros ?%elem_of_nil | by intros [? ?]].
  - rewrite elem_of_cons, IH. case_bool_decide as Hn.
    + split; [eauto | auto].
    + split; [intros [->|?]; done | by right].
Qed.

Lemma getitem_lookup d name s :
  getitem d name = Ok s ↔ lookup_column name (data d) = Some s.
Proof. unfold getitem. destruct (lookup_column _ _); naive_solver. Qed.

Lemma lookup_assign_eq name s cols :
  lookup_column name (assign_column name s cols) = Some s.
Proof.
  induction cols as [|[n c] cols IH]; simpl.
  - by rewrite bool_decide_eq_true_2.
  - case_bool_decide as Hn; simpl.
    + by rewrite bool_decide_eq_true_2.
    + by rewrite bool_decide_eq_false_2.
Qed.

Lemma lookup_assign_ne name name' s cols :
  name ≠ name' →
  lookup_column name' (assign_column name s cols) = lookup_column name' cols.
Proof.
  intros Hne. induction cols as [|[n c] cols IH]; simpl.
  - by rewrite bool_decide_eq_false_2.
  - case_bool_decide as Hn; simpl; simplify_eq.
    + by rewrite !bool_decide_eq_false_2.
    + by rewrite IH.
Qed.

Lemma assign_column_names name s cols :
  is_Some (lookup_column name cols) → (assign_column name s cols).*1 = cols.*1.
Proof.
  induction cols as [|[n c] cols IH]; simpl.
  - by intros [? ?].
  - case_bool_decide; simpl; [done|]. intros ?. f_equal. auto.
Qed.

Lemma assign_column_same name s cols :
  lookup_column name cols = Some s → assign_column name s cols = cols.
Proof.
  induction cols as [|[n c] cols IH]; simpl; [done|].
  case_bool_decide; simplify_eq/=; [naive_solver|]. intros ?. f_equal. auto.
Qed.

Lemma lookup_update_eq name f d :
  lookup_column name (data (update_column name f d)) = f <$> lookup_column name (data d).
Proof.
  unfold update_column. destruct (lookup_column name (data d)) eqn:E; simpl.
  - apply lookup_assign_eq.
  - by rewrite E.
Qed.

Lemma lookup_update_ne name name' f d :
  name ≠ name' →
  lookup_column name' (data (update_column name f d)) = lookup_column name' (data d).
Proof.
  intros. unfold update_column. destruct (lookup_column name (data d)); simpl; [|done].
  by apply lookup_assign_ne.
Qed.

Lemma columns_update name f d : columns (update_column name f d) = columns d.
Proof.
  unfold update_column, columns. destruct (lookup_column name (data d)) eqn:E; [|done].
  simpl. apply assign_column_names. eauto.
Qed.

(** [if name in df.columns: df[name] = f(df[name])], on a store *)
Lemma guarded_update_run r name (f : Series → Series) s :
  (let! present := df_contains r name in
   if present : bool then
     let! c := df_getitem r name in df_setitem r name (f c)
   else ret tt) s
  = (Ok tt, mkState (<[r := update_column name f (deref s r)]> (heap s)) (log s)).
Proof.
  rewrite bind_run, df_contains_run, contains_lookup. unfold update_column.
  destruct (lookup_column name (data (deref s r))) eqn:E.
  - rewrite bool_decide_eq_true_2 by eauto.
    rewrite bind_run, df_getitem_run. unfold getitem. rewrite E.
    by rewrite df_setitem_run.
  - rewrite bool_decide_eq_false_2 by (by intros [? ?]).
    rewrite ret_run. destruct s as [h l]; simpl. f_equal. f_equal.
    unfold deref; simpl. destruct (h !! r) eqn:Hr; simpl.
    + symmetry. by apply list_insert_id.
    + symmetry. apply list_insert_ge. by apply lookup_ge_None.
Qed.

(** ** The methods compute their frame-level reading *)

Ltac store_simpl :=
  cbn [heap log deref init length app lookup list_lookup default from_option
       id insert list_insert fst snd returned for_each for_fold].

Ltac run_with lem := first [rewrite bind_run, lem | rewrite lem]; store_simpl.

Ltac run_step :=
  first
    [ run_with emit_run | run_with df_copy_run | run_with df_len_run
    | run_with df_isnull_total_run | run_with df_isnull_sums_run
    | run_with df_drop_run | run_with df_drop_duplicates_run
    | run_with guarded_update_run | run_with df_contains_run
    | run_with df_getitem_run | run_with df_setitem_run | run_with read_run
    | run_with lift_run | rewrite ret_run; store_simpl
    | rewrite bind_run; store_simpl ].

Lemma standardize_text_columns_run df :
  standardize_text_columns 0%nat (init df)
  = (Ok 1%nat,
     mkState [df; standardize_text_columns_frame df]
       [step_start "Text Standardization";
        step_complete "Text Standardization" (StandardizedColumns 5)]).
Proof.
  unfold standardize_text_columns, log_step_start, log_step_complete.
  cbn [TEXT_COLUMNS config].
  repeat run_step. reflexivity.
Qed.

Lemma drop_columns_nil d : drop_columns d [] = d.
Proof.
  destruct d as [cols]. unfold drop_columns; simpl. f_equal.
  induction cols as [|c cols IH]; [done|].
  rewrite filter_cons_True by apply not_elem_of_nil. by f_equal.
Qed.

Lemma call_handle_missing_values df :
  call handle_missing_values df = handle_missing_values_frame df.
Proof.
  unfold call, handle_missing_values, log_step_start, log_step_complete, log_warning.
  do 6 run_step.
  change (filter _ (isnull_sums df)).*1 with (sparse_columns df).
  unfold handle_missing_values_frame.
  destruct (sparse_columns df) as [|c cs] eqn:E.
  - rewrite drop_columns_nil. do 2 run_step.
    destruct (getitem df cost_column) as [cost|e]; [|done]. simpl.
    run_step. destruct (median cost) as [m|e]; [|done]. simpl.
    repeat run_step. reflexivity.
  - do 4 run_step.
    destruct (getitem (drop_columns df (c :: cs)) cost_column) as [cost|e]; [|done]. simpl.
    run_step. destruct (median cost) as [m|e]; [|done]. simpl.
    repeat run_step. reflexivity.
Qed.

Lemma call_standardize_text_columns df :
  call standardize_text_columns df = Ok (standardize_text_columns_frame df).
Proof. unfold call. by rewrite standardize_text_columns_run. Qed.

Lemma remove_duplicates_run df :
  remove_duplicates 0%nat (init df)
  = (Ok 1%nat,
     mkState [df; drop_duplicates df]
       [step_start "Duplicate Removal";
        step_complete "Duplicate Removal"
          (RemovedDuplicates (Z.of_nat (len df) - Z.of_nat (len (drop_duplicates df))))]).
Proof.
  unfold remove_duplicates, log_step_start, log_step_complete.
  repeat run_step. reflexivity.
Qed.

Ltac run := repeat run_step.

Ltac raises r := destruct r eqn:?; [|done]; cbn [result_bind].

Lemma getitem_Some d name s : lookup_column name (data d) = Some s → getitem d name = Ok s.
Proof. apply getitem_lookup. Qed.

Lemma getitem_None d name :
  lookup_column name (data d) = None → getitem d name = Raise (KeyError name).
Proof. unfold getitem. by intros ->. Qed.

Lemma contains_Some d name s : lookup_column name (data d) = Some s → contains d name = true.
Proof. intros E. rewrite contains_lookup, E. apply bool_decide_eq_true_2. eauto. Qed.

Lemma contains_None d name : lookup_column name (data d) = None → contains d name = false.
Proof. intros E. rewrite contains_lookup, E. apply bool_decide_eq_false_2. by intros [? ?]. Qed.

Lemma call_correct_data_types df :
  call correct_data_types df = correct_data_types_frame df.
Proof.
  unfold call, correct_data_types, correct_data_types_frame, rate_clean_of,
    log_step_start, log_step_complete.
  run.
  destruct (lookup_column rate_column (data df)) as [rate|] eqn:Erate.
  - rewrite (contains_Some _ _ _ Erate). run. rewrite (getitem_Some _ _ _ Erate). run.
    destruct (apply_raising rate _extract_rating) as [extracted|e] eqn:Eext; [|done].
    cbn [result_bind]. run. rewrite (getitem_Some _ _ _ Erate). run. rewrite Eext. run.
    raises (median extracted). run.
    destruct (lookup_column cost_column _) as [cost|] eqn:Ecost.
    + rewrite (contains_Some _ _ _ Ecost). run. rewrite (getitem_Some _ _ _ Ecost). run.
      raises (apply_raising cost _clean_cost). run. reflexivity.
    + rewrite (contains_None _ _ Ecost). run. reflexivity.
  - rewrite (contains_None _ _ Erate). run. cbn [result_bind].
    destruct (lookup_column cost_column _) as [cost|] eqn:Ecost.
    + rewrite (contains_Some _ _ _ Ecost). run. rewrite (getitem_Some _ _ _ Ecost). run.
      raises (apply_raising cost _clean_cost). run. reflexivity.
    + rewrite (contains_None _ _ Ecost). run. reflexivity.
Qed.

Lemma handle_outliers_run df :
  handle_outliers 0%nat (init df)
  = match handle_outliers_frame df with
    | Ok (d, outlier_report) =>
        (Ok 1%nat,
         mkState [df; d]
           [step_start "Outlier Handling";
            step_complete "Outlier Handling" (OutliersHandled outlier_report)])
    | Raise e =>
        (Raise e,
         mkState [df; match handle_outliers_column "rate_clean" (Ok (df, [])) with
                      | Ok (d, _) => d
                      | Raise _ => df
                      end]
           [step_start "Outlier Handling"])
    end.
Proof.
  unfold handle_outliers, handle_outliers_frame, handle_outliers_column, outlier_bounds,
    outliers_count, numerical_cols, log_step_start, log_step_complete.
  run. cbn [result_bind].
  destruct (lookup_column "rate_clean" (data df)) as [rate|] eqn:Erate.
  - rewrite (contains_Some _ _ _ Erate). run. rewrite (getitem_Some _ _ _ Erate). run.
    unfold quantile. destruct (numeric rate); [|done]. cbn [result_bind fst snd]. run.
    destruct (lookup_column "cost_for_two" _) as [cost|] eqn:Ecost.
    + rewrite (contains_Some _ _ _ Ecost). run. rewrite (getitem_Some _ _ _ Ecost). run.
      destruct (numeric cost); [|done]. cbn [result_bind fst snd]. run. reflexivity.
    + rewrite (contains_None _ _ Ecost). run. reflexivity.
  - rewrite (contains_None _ _ Erate). run. cbn [result_bind].
    destruct (lookup_column "cost_for_two" _) as [cost|] eqn:Ecost.
    + rewrite (contains_Some _ _ _ Ecost). run. rewrite (getitem_Some _ _ _ Ecost). run.
      unfold quantile.
      destruct (numeric cost); [|done]. cbn [result_bind fst snd]. run. reflexivity.
    + rewrite (contains_None _ _ Ecost). run. reflexivity.
Qed.

Lemma call_handle_outliers df :
  call handle_outliers df = result_bind (handle_outliers_frame df) (λ r, Ok r.1).
Proof.
  unfold call. rewrite handle_outliers_run.
  by destruct (handle_outliers_frame df) as [[d rep]|e].
Qed.

Lemma call_create_features df :
  call create_features df = create_features_frame df.
Proof.
  unfold call, create_features, create_features_frame, add_category, add_num_cuisines,
    log_step_start, log_step_complete.
  run.
  destruct (lookup_column cuisines_column (data df)) as [cuisines|] eqn:Ecuisines.
  - rewrite (contains_Some _ _ _ Ecuisines). run.
    rewrite (getitem_Some _ _ _ Ecuisines). run.
    destruct (lookup_column "cost_for_two" _) as [cost|] eqn:Ecost.
    + rewrite (contains_Some _ _ _ Ecost). run. rewrite (getitem_Some _ _ _ Ecost). run.
      raises (pd_cut cost (COST_BINS config) (COST_LABELS config)). run.
      destruct (lookup_column "rate_clean" _) as [rate|] eqn:Erate.
      * rewrite (contains_Some _ _ _ Erate). run. rewrite (getitem_Some _ _ _ Erate). run.
        raises (pd_cut rate (RATING_BINS config) (RATING_LABELS config)). run. reflexivity.
      * rewrite (contains_None _ _ Erate). run. reflexivity.
    + rewrite (contains_None _ _ Ecost). run. cbn [result_bind].
      destruct (lookup_column "rate_clean" _) as [rate|] eqn:Erate.
      * rewrite (contains_Some _ _ _ Erate). run. rewrite (getitem_Some _ _ _ Erate). run.
        raises (pd_cut rate (RATING_BINS config) (RATING_LABELS config)). run. reflexivity.
      * rewrite (contains_None _ _ Erate). run. reflexivity.
  - rewrite (contains_None _ _ Ecuisines). run.
    destruct (lookup_column "cost_for_two" _) as [cost|] eqn:Ecost.
    + rewrite (contains_Some _ _ _ Ecost). run. rewrite (getitem_Some _ _ _ Ecost). run.
      raises (pd_cut cost (COST_BINS config) (COST_LABELS config)). run.
      destruct (lookup_column "rate_clean" _) as [rate|] eqn:Erate.
      * rewrite (contains_Some _ _ _ Erate). run. rewrite (getitem_Some _ _ _ Erate). run.
        raises (pd_cut rate (RATING_BINS config) (RATING_LABELS config)). run. reflexivity.
      * rewrite (contains_None _ _ Erate). run. reflexivity.
    + rewrite (contains_None _ _ Ecost). run. cbn [result_bind].
      destruct (lookup_column "rate_clean" _) as [rate|] eqn:Erate.
      * rewrite (contains_Some _ _ _ Erate). run. rewrite (getitem_Some _ _ _ Erate). run.
        raises (pd_cut rate (RATING_BINS config) (RATING_LABELS config)). run. reflexivity.
      * rewrite (contains_None _ _ Erate). run. reflexivity.
Qed.

(** ** What a method leaves alone

    [frames n m Q]: run on a store with at least [n] frames, [m] leaves the
    first [n] frames as they are, and a value it returns satisfies [Q]. *)

Local Open Scope nat_scope.

Lemma frames_ret {A} n (a : A) (Q : A → Prop) : Q a → frames n (ret a) Q.
Proof. intros HQ s Hs. simpl. split_and!; [done..|]. by intros ? [= <-]. Qed.

Lemma frames_bind {A B} n (m : M A) (k : A → M B) Q R :
  frames n m Q → (∀ a, Q a → frames n (k a) R) → frames n (bind m k) R.
Proof.
  intros Hm Hk s Hs. destruct (Hm s Hs) as (Htake & Hlen & HQ).
  unfold bind. destruct (m s) as [[a|e] s1]; simpl in *.
  - destruct (Hk a (HQ a eq_refl) s1 Hlen) as (Htake' & Hlen' & HR).
    split_and!; [congruence | done | done].
  - split_and!; done.
Qed.

Lemma frames_weaken {A} n (m : M A) (Q R : A → Prop) :
  frames n m Q → (∀ a, Q a → R a) → frames n m R.
Proof.
  intros Hm HQR s Hs. destruct (Hm s Hs) as (? & ? & ?). split_and!; auto.
Qed.

Lemma frames_emit n e : frames n (emit e) (λ _, True).
Proof. intros s Hs. simpl. split_and!; done. Qed.

Lemma frames_read n r : frames n (read r) (λ _, True).
Proof. intros s Hs. simpl. split_and!; done. Qed.

Lemma frames_lift {A} n (r : result A) : frames n (lift r) (λ _, True).
Proof. intros s Hs. simpl. split_and!; done. Qed.

Lemma frames_alloc n d : frames n (alloc d) (λ r, n ≤ r).
Proof.
  intros s Hs. simpl. split_and!.
  - by rewrite take_app_le.
  - rewrite length_app. lia.
  - intros ? [= <-]. done.
Qed.

Lemma frames_write n r d : n ≤ r → frames n (write r d) (λ _, True).
Proof.
  intros Hr s Hs. simpl. split_and!; [|by rewrite length_insert|done].
  by rewrite take_insert_ge.
Qed.

Lemma frames_for_each {A} n (l : list A) (body : A → M unit) :
  (∀ x, frames n (body x) (λ _, True)) → frames n (for_each l body) (λ _, True).
Proof.
  intros Hbody. induction l as [|x l IH]; simpl.
  - by apply frames_ret.
  - eapply frames_bind; [apply Hbody | done].
Qed.

Lemma frames_for_fold {A S} n (l : list A) (acc : S) (body : S → A → M S) :
  (∀ acc x, frames n (body acc x) (λ _, True)) →
  frames n (for_fold l acc body) (λ _, True).
Proof.
  intros Hbody. revert acc. induction l as [|x l IH]; intros acc; simpl.
  - by apply frames_ret.
  - eapply frames_bind; [apply Hbody | auto].
Qed.

Lemma frames_true {A} n (m : M A) Q : frames n m Q → frames n m (λ _, True).
Proof. intros H. eapply frames_weaken; [exact H | done]. Qed.

Ltac frames_leaf :=
  lazymatch goal with
  | |- frames _ (emit _) _ => apply frames_emit
  | |- frames _ (log_step_start _) _ => apply frames_emit
  | |- frames _ (log_step_complete _ _) _ => apply frames_emit
  | |- frames _ (log_warning _) _ => apply frames_emit
  | |- frames _ (log_metrics _) _ => apply frames_emit
  | |- frames _ (read _) _ => apply frames_read
  | |- frames _ (lift _) _ => apply frames_lift
  | |- frames _ (alloc _) _ => apply frames_alloc
  | |- frames _ (write _ _) _ => apply frames_write; lia
  | |- frames _ (ret _) _ => apply frames_ret; first [done | lia]
  | |- frames _ _ _ => solve [eauto with frames]
  end.

Ltac frames_step :=
  lazymatch goal with
  | |- frames _ (bind (if ?b then _ else _) _) _ =>
      eapply (frames_bind _ _ _ (λ _, True)); [destruct b | intros ? ?; cbv beta in *]
  | |- frames _ (bind (for_each _ _) _) _ =>
      eapply frames_bind; [apply frames_for_each; intros | intros ? ?; cbv beta in *]
  | |- frames _ (bind (for_fold _ _ _) _) _ =>
      eapply frames_bind; [apply frames_for_fold; intros | intros ? ?; cbv beta in *]
  | |- frames _ (bind _ _) _ =>
      eapply frames_bind; [frames_leaf | intros ? ?; cbv beta in *]
  | |- frames _ (if ?b then _ else _) _ => destruct b
  | |- frames _ (match ?x with _ => _ end) _ => destruct x
  | |- frames _ _ _ => first [frames_leaf | eapply frames_true; frames_leaf]
  end.

Ltac frames_auto := repeat frames_step.

Create HintDb frames discriminated.

Lemma frames_df_copy n r : frames n (df_copy r) (λ r', n ≤ r').
Proof. unfold df_copy. frames_auto. Qed.

Lemma frames_df_drop n r names : frames n (df_drop r names) (λ r', n ≤ r').
Proof. unfold df_drop. frames_auto. Qed.

Lemma frames_df_drop_duplicates n r : frames n (df_drop_duplicates r) (λ r', n ≤ r').
Proof. unfold df_drop_duplicates. frames_auto. Qed.

Lemma frames_df_setitem n r name c : n ≤ r → frames n (df_setitem r name c) (λ _, True).
Proof. intros. unfold df_setitem. frames_auto. Qed.

Lemma frames_df_getitem n r name : frames n (df_getitem r name) (λ _, True).
Proof. unfold df_getitem. frames_auto. Qed.

Lemma frames_df_contains n r name : frames n (df_contains r name) (λ _, True).
Proof. unfold df_contains. frames_auto. Qed.

Lemma frames_df_len n r : frames n (df_len r) (λ _, True).
Proof. unfold df_len. frames_auto. Qed.

Lemma frames_df_isnull_sums n r : frames n (df_isnull_sums r) (λ _, True).
Proof. unfold df_isnull_sums. frames_auto. Qed.

Lemma frames_df_isnull_total n r : frames n (df_isnull_total r) (λ _, True).
Proof. unfold df_isnull_total. frames_auto. Qed.

#[local] Hint Extern 1 (frames _ (df_copy _) _) => apply frames_df_copy : frames.
#[local] Hint Extern 1 (frames _ (df_drop _ _) _) => apply frames_df_drop : frames.
#[local] Hint Extern 1 (frames _ (df_drop_duplicates _) _) =>
  apply frames_df_drop_duplicates : frames.
#[local] Hint Extern 1 (frames _ (df_getitem _ _) _) => apply frames_df_getitem : frames.
#[local] Hint Extern 1 (frames _ (df_contains _ _) _) => apply frames_df_contains : frames.
#[local] Hint Extern 1 (frames _ (df_len _) _) => apply frames_df_len : frames.
#[local] Hint Extern 1 (frames _ (df_isnull_sums _) _) => apply frames_df_isnull_sums : frames.
#[local] Hint Extern 1 (frames _ (df_isnull_total _) _) =>
  apply frames_df_isnull_total : frames.
#[local] Hint Extern 1 (frames _ (df_setitem _ _ _) _) =>
  apply frames_df_setitem; lia : frames.

Lemma frames_handle_missing_values n df :
  frames n (handle_missing_values df) (λ r, n ≤ r).
Proof.
  unfold handle_missing_values.
  do 5 frames_step.
  eapply frames_bind with (Q := λ r, n ≤ r).
  { destruct (_.*1); frames_auto. }
  intros d Hd. frames_auto.
Qed.

Lemma frames_remove_duplicates n df :
  frames n (remove_duplicates df) (λ r, n ≤ r).
Proof. unfold remove_duplicates. frames_auto. Qed.

Lemma frames_standardize_text_columns n df :
  frames n (standardize_text_columns df) (λ r, n ≤ r).
Proof. unfold standardize_text_columns. frames_auto. Qed.

Lemma frames_correct_data_types n df :
  frames n (correct_data_types df) (λ r, n ≤ r).
Proof. unfold correct_data_types. frames_auto. Qed.

Lemma frames_handle_outliers n df :
  frames n (handle_outliers df) (λ r, n ≤ r).
Proof. unfold handle_outliers. frames_auto. Qed.

Lemma frames_create_features n df :
  frames n (create_features df) (λ r, n ≤ r).
Proof. unfold create_features. frames_auto. Qed.

#[local] Hint Extern 1 (frames _ (handle_missing_values _) _) =>
  apply frames_handle_missing_values : frames.
#[local] Hint Extern 1 (frames _ (remove_duplicates _) _) =>
  apply frames_remove_duplicates : frames.
#[local] Hint Extern 1 (frames _ (standardize_text_columns _) _) =>
  apply frames_standardize_text_columns : frames.
#[local] Hint Extern 1 (frames _ (correct_data_types _) _) =>
  apply frames_correct_data_types : frames.
#[local] Hint Extern 1 (frames _ (handle_outliers _) _) =>
  apply frames_handle_outliers : frames.
#[local] Hint Extern 1 (frames _ (create_features _) _) =>
  apply frames_create_features : frames.

Lemma frames_generate_quality_report n original_df cleaned_df :
  frames n (generate_quality_report original_df cleaned_df) (λ _, True).
Proof. unfold generate_quality_report. frames_auto. Qed.

#[local] Hint Extern 1 (frames _ (generate_quality_report _ _) _) =>
  apply frames_generate_quality_report : frames.

Lemma frames_run_pipeline n original_df :
  frames n (run_pipeline original_df) (λ _, True).
Proof. unfold run_pipeline. frames_auto. Qed.

Lemma frames_lookup {A} (m : M A) Q s r d :
  frames (length (heap s)) m Q →
  heap s !! r = Some d → heap (m s).2 !! r = Some d.
Proof.
  intros Hm Hr. destruct (Hm s (le_n _)) as (Htake & _ & _).
  rewrite (take_ge (heap s)) in Htake by lia.
  rewrite <- (take_drop (length (heap s)) (heap (m s).2)), Htake.
  by apply lookup_app_l_Some.
Qed.

Lemma frames_fresh {A} (m : M A) Q s a :
  frames (length (heap s)) m Q → (m s).1 = Ok a → Q a.
Proof. intros Hm. destruct (Hm s (le_n _)) as (_ & _ & HQ). apply HQ. Qed.

Lemma bind_Ok {A B} (m : M A) (k : A → M B) s b s' :
  bind m k s = (Ok b, s') → ∃ a s1, m s = (Ok a, s1) ∧ k a s1 = (Ok b, s').
Proof. unfold bind. destruct (m s) as [[a|e] s1]; [eauto | done]. Qed.

Lemma frames_prefix {A} n (m : M A) Q h s r s' :
  frames n m Q → length h = n → take n (heap s) = h → m s = (r, s') →
  take n (heap s') = h.
Proof.
  intros Hm Hh Hs Hrun.
  assert (n ≤ length (heap s)) as Hn.
  { rewrite <- (take_drop n (heap s)), Hs, length_app. lia. }
  destruct (Hm s Hn) as (Htake & _ & _). rewrite Hrun in Htake. simpl in Htake. congruence.
Qed.

Lemma generate_quality_report_run original_df cleaned_df s :
  generate_quality_report original_df cleaned_df s
  = (Ok {| data_quality_metrics := _calculate_quality_metrics (deref s cleaned_df);
           report_cleaning_impact :=
             _calculate_cleaning_impact (deref s original_df) (deref s cleaned_df);
           final_dataset_info := _get_dataset_info (deref s cleaned_df) |},
     mkState (heap s)
       (log s ++ [step_start "Quality Report Generation";
                  log_metrics_event (_calculate_quality_metrics (deref s cleaned_df));
                  step_complete "Quality Report Generation" ReportGenerated])).
Proof.
  unfold generate_quality_report, bind, log_step_start, log_step_complete, log_metrics,
    emit, read, ret. cbn [heap log deref]. by rewrite <- !app_assoc.
Qed.

(** The report of a run compares the result with the frame that was loaded. *)
Lemma run_pipeline_report s original_df original cleaned_df report s' :
  heap s !! original_df = Some original →
  run_pipeline original_df s = (Ok (cleaned_df, report), s') →
  report_cleaning_impact report
  = _calculate_cleaning_impact original (deref s' cleaned_df).
Proof.
  intros Horig Hrun. unfold run_pipeline in Hrun.
  set (n := length (heap s)).
  assert (take n (heap s) = heap s) as H0 by (apply take_ge; unfold n; lia).
  apply bind_Ok in Hrun as (r1 & s1 & E1 & Hrun).
  pose proof (frames_prefix n _ _ _ _ _ _
                (frames_handle_missing_values n original_df) eq_refl H0 E1) as H1.
  apply bind_Ok in Hrun as (r2 & s2 & E2 & Hrun).
  pose proof (frames_prefix n _ _ _ _ _ _ (frames_remove_duplicates n r1) eq_refl H1 E2) as H2.
  apply bind_Ok in Hrun as (r3 & s3 & E3 & Hrun).
  pose proof (frames_prefix n _ _ _ _ _ _
                (frames_standardize_text_columns n r2) eq_refl H2 E3) as H3.
  apply bind_Ok in Hrun as (r4 & s4 & E4 & Hrun).
  pose proof (frames_prefix n _ _ _ _ _ _ (frames_correct_data_types n r3) eq_refl H3 E4) as H4.
  apply bind_Ok in Hrun as (r5 & s5 & E5 & Hrun).
  pose proof (frames_prefix n _ _ _ _ _ _ (frames_handle_outliers n r4) eq_refl H4 E5) as H5.
  apply bind_Ok in Hrun as (r6 & s6 & E6 & Hrun).
  pose proof (frames_prefix n _ _ _ _ _ _ (frames_create_features n r5) eq_refl H5 E6) as H6.
  apply bind_Ok in Hrun as (rep & s7 & E7 & Hrun).
  rewrite generate_quality_report_run in E7.
  injection E7 as <- <-. injection Hrun as <- <- <-.
  cbn [report_cleaning_impact]. f_equal.
  unfold deref. rewrite <- (take_drop n (heap s6)), H6.
  by rewrite (lookup_app_l_Some _ _ _ _ Horig).
Qed.

(** ** Rationals *)

Lemma Qc_eq_Qeq (a b : Qc) : a = b → (this a == this b)%Q.
Proof. by intros ->. Qed.

Lemma Qc_neq_Qeq (a b : Qc) : a ≠ b → ¬ (this a == this b)%Q.
Proof. intros H E. by apply H, Qc_is_canon. Qed.

Ltac qc_to_q :=
  repeat match goal with
  | H : ¬ (_ ≤ _)%Qc |- _ => apply Qcnot_le_lt in H
  | H : ¬ (_ < _)%Qc |- _ => apply Qcnot_lt_le in H
  | H : @eq Qc _ _ |- _ => apply Qc_eq_Qeq in H
  | H : ¬ @eq Qc _ _ |- _ => apply Qc_neq_Qeq in H
  | |- @eq Qc _ _ => apply Qc_is_canon
  | |- ¬ (_ ≤ _)%Qc => apply Qclt_not_le
  | |- ¬ (_ < _)%Qc => apply Qcle_not_lt
  end;
  unfold Qcle, Qclt, Qc_of_nat, Qc_of_Z, half, quarter, three_quarters in *;
  repeat (unfold Qcplus, Qcminus, Qcmult, Qcopp, Qcdiv, Qcinv, Q2Qc in *; cbn [this] in *;
          rewrite ?Qred_correct in * );
  unfold inject_Z in *.

Ltac qc_lra := qc_to_q; lra.

(** ** The validation (claim C6) *)





(** ** Rounding *)

Lemma Qc_of_Z_this z : this (Qc_of_Z z) = inject_Z z.
Proof. reflexivity. Qed.

Lemma Qfloor_bounds (x : Qc) :
  (Qc_of_Z (Qfloor x) ≤ x)%Qc ∧ (x < Qc_of_Z (Qfloor x + 1))%Qc.
Proof. unfold Qcle, Qclt. rewrite !Qc_of_Z_this. split; [apply Qfloor_le | apply Qlt_floor]. Qed.

Lemma Qc_of_Z_le a b : (a ≤ b)%Z ↔ (Qc_of_Z a ≤ Qc_of_Z b)%Qc.
Proof. unfold Qcle. rewrite !Qc_of_Z_this. by rewrite Zle_Qle. Qed.

Lemma Qc_of_Z_lt a b : (a < b)%Z ↔ (Qc_of_Z a < Qc_of_Z b)%Qc.
Proof. unfold Qclt. rewrite !Qc_of_Z_this. by rewrite Zlt_Qlt. Qed.

Lemma Qc_of_Z_plus a b : Qc_of_Z (a + b) = (Qc_of_Z a + Qc_of_Z b)%Qc.
Proof.
  apply Qc_is_canon. unfold Qcplus, Q2Qc. cbn [this].
  rewrite Qred_correct, !Qc_of_Z_this. by rewrite inject_Z_plus.
Qed.



Lemma round_half_even_bounds (x : Qc) :
  (Qfloor x ≤ round_half_even x ≤ Qfloor x + 1)%Z.
Proof.
  unfold round_half_even. repeat case_bool_decide; try destruct (Z.even _); lia.
Qed.

Lemma round_half_even_Z (z : Z) : round_half_even (Qc_of_Z z) = z.
Proof.
  unfold round_half_even.
  assert (Qfloor (Qc_of_Z z) = z) as -> by (rewrite Qc_of_Z_this; apply Qfloor_Z).
  rewrite bool_decide_eq_true_2; [done|]. qc_lra.
Qed.

Lemma round_half_even_nonneg (x : Qc) : (0 ≤ x)%Qc → (0 ≤ round_half_even x)%Z.
Proof.
  intros Hx. pose proof (round_half_even_bounds x) as [H _].
  destruct (Qfloor_bounds x) as [_ Hf].
  assert (0 < Qfloor x + 1)%Z; [|lia].
  apply Qc_of_Z_lt. eapply Qcle_lt_trans; [|exact Hf]. exact Hx.
Qed.

Lemma round_half_even_le (x : Qc) (N : Z) :
  (x ≤ Qc_of_Z N)%Qc → (round_half_even x ≤ N)%Z.
Proof.
  intros Hx. destruct (decide (x = Qc_of_Z N)) as [->|Hne].
  - by rewrite round_half_even_Z.
  - pose proof (round_half_even_bounds x) as [_ H].
    destruct (Qfloor_bounds x) as [Hf _].
    assert (Qfloor x < N)%Z; [|lia].
    apply Qc_of_Z_lt. eapply Qcle_lt_trans; [exact Hf|].
    apply Qcle_lt_or_eq in Hx as [?|?]; [done|]. by destruct Hne.
Qed.


(** ** The completeness score (claim C5) *)

Lemma Qc_of_nat_le a b : a ≤ b ↔ (Qc_of_nat a ≤ Qc_of_nat b)%Qc.
Proof. unfold Qc_of_nat. rewrite <- Qc_of_Z_le. lia. Qed.

Lemma Qc_of_nat_lt a b : a < b ↔ (Qc_of_nat a < Qc_of_nat b)%Qc.
Proof. unfold Qc_of_nat. rewrite <- Qc_of_Z_lt. lia. Qed.

Lemma Qc_of_Z_mult a b : Qc_of_Z (a * b) = (Qc_of_Z a * Qc_of_Z b)%Qc.
Proof.
  apply Qc_is_canon. unfold Qcmult, Q2Qc. cbn [this].
  rewrite Qred_correct, !Qc_of_Z_this. by rewrite inject_Z_mult.
Qed.

Lemma Qc_of_nat_mult a b : Qc_of_nat (a * b) = (Qc_of_nat a * Qc_of_nat b)%Qc.
Proof. unfold Qc_of_nat. by rewrite Nat2Z.inj_mul, Qc_of_Z_mult. Qed.

Lemma Qc_of_nat_pos t : 0 < t → (0 < Qc_of_nat t)%Qc.
Proof. intros. by apply (Qc_of_nat_lt 0 t). Qed.

Lemma Qcdiv_le_iff (x y c : Qc) : (0 < y)%Qc → (x / y ≤ c)%Qc ↔ (x ≤ c * y)%Qc.
Proof.
  intros Hy. rewrite (Qcmult_le_mono_pos_r (x / y) c y) by done.
  replace (x / y * y)%Qc with x; [done|].
  rewrite Qcmult_comm, Qcmult_div_r; [done|]. intros ->. by apply Qclt_not_eq in Hy.
Qed.

Lemma Qcdiv_ge_iff (x y c : Qc) : (0 < y)%Qc → (c ≤ x / y)%Qc ↔ (c * y ≤ x)%Qc.
Proof.
  intros Hy. rewrite (Qcmult_le_mono_pos_r c (x / y) y) by done.
  replace (x / y * y)%Qc with x; [done|].
  rewrite Qcmult_comm, Qcmult_div_r; [done|]. intros ->. by apply Qclt_not_eq in Hy.
Qed.



Lemma isnull_sum_le s : isnull_sum s ≤ length s.
Proof. apply length_filter. Qed.

Lemma isnull_total_le df :
  rectangular df → isnull_total df ≤ len df * length (columns df).
Proof.
  unfold rectangular, isnull_total, isnull_sums, columns.
  generalize (len df) as n. intros n Hrect.
  apply forallb_True in Hrect.
  induction Hrect as [|[name s] cols Hs _ IH]; [simpl; lia|].
  apply bool_decide_unpack in Hs. simpl in Hs.
  pose proof (isnull_sum_le s).
  rewrite !fmap_cons, length_cons, Nat.mul_succ_r. simpl. lia.
Qed.

Section completeness.
Variables missing total : nat.
Hypothesis missing_le_total : missing ≤ total.
Hypothesis total_pos : 0 < total.

Let x : Qc := (1 - Qc_of_nat missing / Qc_of_nat total)%Qc.



End completeness.


(** ** A missing cost column (claim C1) *)

Lemma handle_missing_values_KeyError df :
  lookup_column cost_column (data (drop_columns df (sparse_columns df))) = None →
  call handle_missing_values df = Raise (KeyError cost_column).
Proof.
  intros H. rewrite call_handle_missing_values. unfold handle_missing_values_frame.
  by rewrite (getitem_None _ _ H).
Qed.

(** ** Text normalization (claims C7 and C9) *)

Lemma update_column_data name f d :
  data (update_column name f d) = map_first name f (data d).
Proof.
  unfold update_column. destruct d as [cols]; simpl.
  induction cols as [|[n s] cols IH]; simpl; [done|].
  case_bool_decide; simpl; [by rewrite bool_decide_eq_true_2|].
  destruct (lookup_column name cols) eqn:E; simpl in *.
  - rewrite bool_decide_eq_false_2 by done. by f_equal.
  - by f_equal.
Qed.

Lemma update_column_eq name f d : update_column name f d = mkDataFrame (map_first name f (data d)).
Proof. rewrite <- update_column_data. by destruct (update_column name f d). Qed.

Lemma map_first_comm n1 n2 f g cols :
  n1 ≠ n2 → map_first n1 f (map_first n2 g cols) = map_first n2 g (map_first n1 f cols).
Proof.
  intros Hne. induction cols as [|[n s] cols IH]; simpl; [done|].
  repeat (case_bool_decide; simplify_eq/=); try done. by f_equal.
Qed.


Lemma map_first_names name f cols : (map_first name f cols).*1 = cols.*1.
Proof.
  induction cols as [|[n s] cols IH]; simpl; [done|].
  case_bool_decide; simpl; by f_equal.
Qed.

Lemma map_first_id name f cols :
  (∀ s, lookup_column name cols = Some s → f s = s) → map_first name f cols = cols.
Proof.
  induction cols as [|[n s] cols IH]; simpl; [done|].
  case_bool_decide; intros Hf.
  - by rewrite Hf.
  - f_equal. auto.
Qed.

Lemma lookup_map_first_eq name f cols :
  lookup_column name (map_first name f cols) = f <$> lookup_column name cols.
Proof.
  induction cols as [|[n s] cols IH]; simpl; [done|].
  case_bool_decide; simpl.
  - by rewrite bool_decide_eq_true_2.
  - by rewrite bool_decide_eq_false_2.
Qed.

Lemma lookup_map_first_ne name name' f cols :
  name ≠ name' → lookup_column name' (map_first name f cols) = lookup_column name' cols.
Proof.
  intros Hne. induction cols as [|[n s] cols IH]; simpl; [done|].
  case_bool_decide; simpl; simplify_eq.
  - by rewrite !bool_decide_eq_false_2.
  - by rewrite IH.
Qed.

Lemma foldl_update_column names f d :
  foldl (λ d name, update_column name f d) d names
  = mkDataFrame (map_columns names f (data d)).
Proof.
  unfold map_columns. revert d. induction names as [|n names IH]; intros d; simpl.
  - by destruct d.
  - by rewrite IH, update_column_data.
Qed.

Lemma map_columns_map_first name names f g cols :
  name ∉ names →
  map_columns names f (map_first name g cols) = map_first name g (map_columns names f cols).
Proof.
  unfold map_columns. revert cols.
  induction names as [|n names IH]; intros cols Hn; simpl; [done|].
  apply not_elem_of_cons in Hn as [Hne Hn].
  by rewrite <- IH, (map_first_comm n name) by done.
Qed.


Lemma lookup_map_columns_in name names f cols :
  NoDup names → name ∈ names →
  lookup_column name (map_columns names f cols) = f <$> lookup_column name cols.
Proof.
  intros Hnd. revert cols.
  induction Hnd as [|n names Hn Hnd IH]; intros cols Hin; [by apply elem_of_nil in Hin|].
  change (map_columns (n :: names) f cols) with (map_columns names f (map_first n f cols)).
  apply elem_of_cons in Hin as [->|Hin].
  - rewrite map_columns_map_first by done. rewrite lookup_map_first_eq.
    f_equal. clear IH Hnd. unfold map_columns. revert cols.
    induction names as [|n' names IH]; intros cols; simpl; [done|].
    apply not_elem_of_cons in Hn as [Hne Hn].
    rewrite IH by done. by apply lookup_map_first_ne.
  - rewrite IH by done. f_equal. apply lookup_map_first_ne. by intros ->.
Qed.

Lemma lookup_map_columns_notin name names f cols :
  name ∉ names → lookup_column name (map_columns names f cols) = lookup_column name cols.
Proof.
  unfold map_columns. revert cols.
  induction names as [|n names IH]; intros cols Hn; simpl; [done|].
  apply not_elem_of_cons in Hn as [Hne Hn].
  rewrite IH by done. by apply lookup_map_first_ne.
Qed.

(** Characters *)














Lemma standardize_series_cell s :
  standardize_series s = (λ c, Str (title (strip (str_of_cell c)))) <$> s.
Proof.
  unfold standardize_series, str_method, astype_str.
  rewrite <- !list_fmap_compose. by apply list_fmap_ext.
Qed.


Lemma TEXT_COLUMNS_NoDup : NoDup (TEXT_COLUMNS config).
Proof. by apply (bool_decide_unpack _). Qed.

Lemma standardize_text_columns_frame_data df :
  standardize_text_columns_frame df
  = mkDataFrame (map_columns (TEXT_COLUMNS config) standardize_series (data df)).
Proof. apply foldl_update_column. Qed.


Lemma isnull_sum_cons c s :
  isnull_sum (c :: s) = (if isna c then 1 else 0) + isnull_sum s.
Proof. by destruct c. Qed.

Lemma standardize_series_strings s :
  Forall (λ c, ∃ x, c = Str x) (standardize_series s) ∧ isnull_sum (standardize_series s) = 0.
Proof.
  rewrite standardize_series_cell.
  induction s as [|c s [IH1 IH2]]; [by split|]. rewrite fmap_cons. split.
  - constructor; eauto.
  - by rewrite isnull_sum_cons.
Qed.

Lemma standardize_series_NaN s i :
  s !! i = Some NaN → standardize_series s !! i = Some (Str "Nan").
Proof.
  intros H. rewrite standardize_series_cell, list_lookup_fmap, H. reflexivity.
Qed.

(** C9: after [standardize_text_columns], a configured text column that the
    frame has holds strings only and no null; a null entry has become the
    string "Nan". *)
Theorem C9_text_columns_hold_strings (df : DataFrame) (column : string) (s : Series) :
  column ∈ TEXT_COLUMNS config →
  getitem df column = Ok s →
  ∃ df' s',
    call standardize_text_columns df = Ok df'
    ∧ getitem df' column = Ok s'
    ∧ length s' = length s
    ∧ Forall (λ c, ∃ x, c = Str x) s'
    ∧ isnull_sum s' = 0
    ∧ ∀ i, s !! i = Some NaN → s' !! i = Some (Str "Nan").
Proof.
  intros Hcol Hs. apply getitem_lookup in Hs.
  exists (standardize_text_columns_frame df), (standardize_series s).
  split; [apply call_standardize_text_columns|].
  split.
  { apply getitem_lookup. rewrite standardize_text_columns_frame_data. cbn [data].
    rewrite lookup_map_columns_in by (done || apply TEXT_COLUMNS_NoDup). by rewrite Hs. }
  split; [by rewrite standardize_series_cell, length_fmap|].
  destruct (standardize_series_strings s) as [? ?].
  split_and!; [done | done |]. apply standardize_series_NaN.
Qed.

(** ** Imputation (claim C7) *)



Lemma fillna_length s v : length (fillna s v) = length s.
Proof. apply length_fmap. Qed.

Lemma fillna_NaN s : fillna s NaN = s.
Proof.
  unfold fillna. induction s as [|c s IH]; [done|]. rewrite fmap_cons, IH.
  by destruct c.
Qed.

Lemma fillna_cons c s v : fillna (c :: s) v = (if isna c then v else c) :: fillna s v.
Proof. reflexivity. Qed.


Lemma isnull_sum_fillna s v : isna v = false → isnull_sum (fillna s v) = 0.
Proof.
  intros Hv. induction s as [|c s IH]; [done|].
  rewrite fillna_cons, isnull_sum_cons, IH.
  destruct (isna c) eqn:Hc; by rewrite ?Hv, ?Hc.
Qed.

Lemma isnull_sum_fillna_le s v : isnull_sum (fillna s v) ≤ isnull_sum s.
Proof.
  destruct (isna v) eqn:Hv.
  - destruct v; try done. by rewrite fillna_NaN.
  - rewrite isnull_sum_fillna by done. lia.
Qed.


Lemma numeric_fillna s x : numeric s → numeric (fillna s (cell_of x)).
Proof.
  unfold numeric, fillna. intros H. apply forallb_True in H. apply forallb_True.
  apply Forall_fmap. revert H; apply Forall_impl.
  intros c Hc. simpl. destruct c; try done. by destruct x.
Qed.


Lemma impute_data m d : impute m d = mkDataFrame (impute_columns m (data d)).
Proof.
  unfold impute, impute_columns.
  rewrite update_column_eq. f_equal.
  by rewrite !update_column_data.
Qed.






Lemma rectangular_length df c : rectangular df → c ∈ data df → length c.2 = len df.
Proof.
  unfold rectangular. intros H Hc. apply forallb_True in H.
  rewrite Forall_forall in H. apply list_elem_of_In in Hc.
  specialize (H c Hc). by apply bool_decide_unpack in H.
Qed.

Lemma len_drop_columns df names c cols :
  rectangular df → data (drop_columns df names) = c :: cols →
  len (drop_columns df names) = len df.
Proof.
  intros Hrect Hd. unfold len at 1. rewrite Hd. destruct c as [n s].
  apply (rectangular_length df (n, s) Hrect).
  assert ((n, s) ∈ data (drop_columns df names)) as Hin by (rewrite Hd; left).
  unfold drop_columns in Hin. cbn [data] in Hin.
  by apply list_elem_of_filter in Hin as [_ ?].
Qed.

Lemma len_map_first name f cols :
  (∀ s, length (f s) = length s) →
  len (mkDataFrame (map_first name f cols)) = len (mkDataFrame cols).
Proof.
  intros Hf. unfold len. cbn [data]. destruct cols as [|[n s] cols]; [done|].
  simpl. case_bool_decide; [apply Hf | done].
Qed.

Lemma len_impute m d : len (impute m d) = len d.
Proof.
  rewrite impute_data. unfold impute_columns.
  rewrite !len_map_first by (intros; apply fillna_length). by destruct d.
Qed.







(** ** Deduplication (claim C8) *)

Lemma rows_rows_of df : rows df = rows_of (data df) (len df).
Proof. reflexivity. Qed.

Lemma length_rows df : length (rows df) = len df.
Proof. unfold rows. by rewrite length_fmap, length_seq. Qed.

Lemma rows_of_S cols n : rows_of cols (S n) = heads cols :: rows_of (tails cols) n.
Proof.
  unfold rows_of. cbn [seq fmap list_fmap]. f_equal.
  rewrite <- fmap_S_seq, <- list_fmap_compose. apply list_fmap_ext. intros _ i _.
  unfold tails. rewrite <- list_fmap_compose. apply list_fmap_ext. intros _ [n' s] _.
  simpl. by destruct s.
Qed.

Lemma select_columns_true mask cols :
  Forall (λ c : string * Series, length c.2 = S (length mask)) cols →
  heads (select_columns (true :: mask) cols) = heads cols
  ∧ tails (select_columns (true :: mask) cols) = select_columns mask (tails cols).
Proof.
  intros H. unfold heads, tails, select_columns. rewrite <- !list_fmap_compose.
  split; apply Forall_fmap_ext_1; (revert H; apply Forall_impl);
    intros [n [|x s]] Hlen; simpl in *; done.
Qed.

Lemma select_columns_false mask cols :
  Forall (λ c : string * Series, length c.2 = S (length mask)) cols →
  select_columns (false :: mask) cols = select_columns mask (tails cols).
Proof.
  intros H. unfold tails, select_columns. rewrite <- !list_fmap_compose.
  apply Forall_fmap_ext_1. revert H. apply Forall_impl.
  intros [n [|x s]] Hlen; simpl in *; done.
Qed.

Lemma rows_of_select mask cols :
  Forall (λ c : string * Series, length c.2 = length mask) cols →
  rows_of (select_columns mask cols) (count_true mask)
  = mask_select mask (rows_of cols (length mask)).
Proof.
  revert cols. induction mask as [|m mask IH]; intros cols Hcols; [done|].
  assert (Forall (λ c : string * Series, length c.2 = length mask) (tails cols)) as Htails.
  { unfold tails. apply Forall_fmap. revert Hcols. apply Forall_impl.
    intros [n [|x s]] Hlen; simpl in *; [done | lia]. }
  cbn [length]. rewrite rows_of_S. cbn [mask_select]. destruct m.
  - destruct (select_columns_true mask cols Hcols) as [Hh Ht].
    unfold count_true. rewrite filter_cons_True by done. cbn [length].
    rewrite rows_of_S, Hh, Ht. f_equal. by apply IH.
  - rewrite (select_columns_false mask cols Hcols).
    unfold count_true. rewrite filter_cons_False by (by intros ?). by apply IH.
Qed.

Lemma length_mask_select {A} (mask : list bool) (s : list A) :
  length s = length mask → length (mask_select mask s) = count_true mask.
Proof.
  revert s. induction mask as [|m mask IH]; intros [|x s] Hlen; simpl in *; try done.
  unfold count_true. destruct m.
  - rewrite filter_cons_True by done. simpl. f_equal. apply IH. lia.
  - rewrite filter_cons_False by (by intros ?). apply IH. lia.
Qed.

Lemma length_duplicated_from seen rs : length (duplicated_from seen rs) = length rs.
Proof. revert seen. induction rs as [|r rs IH]; intros seen; simpl; [done|]. by rewrite IH. Qed.

Lemma rows_drop_duplicates df :
  rectangular df →
  rows (drop_duplicates df) = mask_select (negb <$> duplicated df) (rows df).
Proof.
  intros Hrect.
  assert (length (negb <$> duplicated df) = len df) as Hmask.
  { unfold duplicated. by rewrite length_fmap, length_duplicated_from, length_rows. }
  assert (Forall (λ c : string * Series, length c.2 = length (negb <$> duplicated df))
            (data df)) as Hcols.
  { apply Forall_forall. intros c Hc%list_elem_of_In. rewrite Hmask.
    by apply rectangular_length. }
  rewrite (rows_rows_of df), <- Hmask, <- rows_of_select by done.
  rewrite rows_rows_of. unfold drop_duplicates. cbn [data].
  fold (select_columns (negb <$> duplicated df) (data df)). f_equal.
  unfold len. cbn [data]. destruct (data df) as [|[n s] cols] eqn:Hd.
  - simpl. unfold len in Hmask. rewrite Hd in Hmask.
    by destruct (negb <$> duplicated df).
  - simpl. apply length_mask_select. by inversion Hcols.
Qed.

Lemma mask_select_sublist {A} (mask : list bool) (l : list A) :
  mask_select mask l `sublist_of` l.
Proof.
  revert l. induction mask as [|m mask IH]; intros l; [apply sublist_nil_l|].
  destruct l as [|x l]; [apply sublist_nil_l|]. simpl.
  destruct m; [by apply sublist_skip | by apply sublist_cons].
Qed.

(** What the mask of [duplicated] says of a row, and what survives it. *)
Lemma duplicated_from_lookup seen rs i r :
  rs !! i = Some r →
  ∃ b, duplicated_from seen rs !! i = Some b
       ∧ (b = true ↔ r ∈ seen ∨ ∃ j, j < i ∧ rs !! j = Some r).
Proof.
  revert seen i. induction rs as [|r0 rs IH]; intros seen i Hi; [done|].
  destruct i as [|i]; simpl in *.
  - injection Hi as ->. eexists. split; [done|]. rewrite bool_decide_eq_true.
    split; [by left | intros [?|(j & ? & _)]; [done | lia]].
  - destruct (IH (r0 :: seen) _ Hi) as (b & Hb & Hiff). exists b. split; [done|].
    rewrite Hiff. split.
    + intros [[->|Hin]%elem_of_cons | (j & Hj & Hr)].
      * right. exists 0. split; [lia | done].
      * by left.
      * right. exists (S j). split; [lia | done].
    + intros [Hin | (j & Hj & Hr)].
      * left. by right.
      * destruct j as [|j]; simpl in Hr.
        { injection Hr as ->. left. left. }
        right. exists j. split; [lia | done].
Qed.

Lemma keep_first_spec seen rs :
  NoDup (kept_from seen rs)
  ∧ (∀ r, r ∈ kept_from seen rs → (r ∉ seen) ∧ r ∈ rs)
  ∧ (∀ r, r ∈ rs → r ∈ seen ∨ r ∈ kept_from seen rs).
Proof.
  unfold kept_from. revert seen. induction rs as [|r0 rs IH]; intros seen; simpl.
  { split_and!; [constructor | by intros ? ?%elem_of_nil | by intros ? ?%elem_of_nil]. }
  destruct (IH (r0 :: seen)) as (Hnd & Hkept & Hall).
  case_bool_decide as Hr0; simpl.
  - split_and!; [done | |].
    + intros r Hr. destruct (Hkept r Hr) as [Hns Hin].
      split; [|by right]. intros ?. apply Hns. by right.
    + intros r [->|Hr]%elem_of_cons; [by left|].
      destruct (Hall r Hr) as [[->|?]%elem_of_cons|?]; auto.
  - split_and!.
    + constructor; [|done]. intros Hin. destruct (Hkept r0 Hin) as [Hns _].
      apply Hns. left.
    + intros r [->|Hr]%elem_of_cons; [split; [done | left]|].
      destruct (Hkept r Hr) as [Hns Hin].
      split; [|by right]. intros ?. apply Hns. by right.
    + intros r [->|Hr]%elem_of_cons; [right; left|].
      destruct (Hall r Hr) as [[->|?]%elem_of_cons|?]; auto.
      * right. left.
      * right. by right.
Qed.

Lemma columns_drop_duplicates df : columns (drop_duplicates df) = columns df.
Proof.
  unfold columns, drop_duplicates. cbn [data]. rewrite <- list_fmap_compose.
  by apply list_fmap_ext.
Qed.

(** C8: on a rectangular frame [remove_duplicates] returns the frame without
    the rows that equal an earlier row: the rows kept are those the mask of
    [duplicated] leaves, a row is masked exactly when an equal row stands
    before it, the rows kept are in their old order, pairwise different, and
    every row of the input is among them; the columns are the same, and there
    are no more rows and columns than before. *)
Theorem C8_remove_duplicates_keeps_first (df : DataFrame) :
  rectangular df →
  ∃ df',
    call remove_duplicates df = Ok df'
    ∧ columns df' = columns df
    ∧ rows df' = mask_select (negb <$> duplicated df) (rows df)
    ∧ (∀ i r, rows df !! i = Some r →
         ∃ masked, duplicated df !! i = Some masked
                   ∧ (masked = true ↔ ∃ j, j < i ∧ rows df !! j = Some r))
    ∧ rows df' `sublist_of` rows df
    ∧ NoDup (rows df')
    ∧ (∀ r, r ∈ rows df' ↔ r ∈ rows df)
    ∧ len df' ≤ len df
    ∧ length (columns df') ≤ length (columns df).
Proof.
  intros Hrect. exists (drop_duplicates df).
  pose proof (rows_drop_duplicates df Hrect) as Hrows.
  destruct (keep_first_spec [] (rows df)) as (Hnd & Hkept & Hall).
  unfold kept_from in Hnd, Hkept, Hall.
  fold (duplicated df) in Hnd, Hkept, Hall. rewrite <- Hrows in Hnd, Hkept, Hall.
  assert (rows (drop_duplicates df) `sublist_of` rows df) as Hsub.
  { rewrite Hrows. apply mask_select_sublist. }
  split_and!.
  - unfold call. by rewrite remove_duplicates_run.
  - apply columns_drop_duplicates.
  - done.
  - intros i r Hi. unfold duplicated.
    destruct (duplicated_from_lookup [] _ i r Hi) as (b & Hb & Hiff).
    exists b. split; [done|]. rewrite Hiff.
    split; [intros [?%elem_of_nil|?]; done | by right].
  - done.
  - done.
  - intros r. split; [intros Hr; by destruct (Hkept r Hr) | intros Hr].
    by destruct (Hall r Hr) as [?%elem_of_nil|?].
  - rewrite <- !length_rows. by apply sublist_length.
  - by rewrite columns_drop_duplicates.
Qed.

(** ** Binning (claim C2) *)

Lemma searchsorted_left_cons b bins x :
  searchsorted_left (b :: bins) x = (if flt b x then 1 else 0) + searchsorted_left bins x.
Proof.
  unfold searchsorted_left. rewrite filter_cons.
  destruct (decide _) as [H|H]; destruct (flt b x); simpl in *; done.
Qed.

Ltac bins_by_cases q :=
  cbn [COST_BINS COST_LABELS RATING_BINS RATING_LABELS config];
  rewrite !searchsorted_left_cons;
  unfold in_interval, flt, fle, of_Z;
  destruct (bool_decide_reflect (q ≤ Qc_of_Z 0)%Qc);
  try destruct (bool_decide_reflect (q ≤ Qc_of_Z 500)%Qc);
  try destruct (bool_decide_reflect (q ≤ Qc_of_Z 1000)%Qc);
  try destruct (bool_decide_reflect (q ≤ Qc_of_Z 2000)%Qc);
  try destruct (bool_decide_reflect (q ≤ Qc_of_Z 2)%Qc);
  try destruct (bool_decide_reflect (q ≤ Qc_of_Z 3)%Qc);
  try destruct (bool_decide_reflect (q ≤ Qc_of_Z 4)%Qc);
  try destruct (bool_decide_reflect (q ≤ Qc_of_Z 5)%Qc);
  try reflexivity; exfalso; qc_lra.

Lemma cut_cell_cost c : cut_cell (COST_BINS config) (COST_LABELS config) c = cost_label c.
Proof.
  destruct c as [| s |[q|[]]]; try reflexivity.
  unfold cut_cell, cost_label. bins_by_cases q.
Qed.

Lemma cut_cell_rating c :
  cut_cell (RATING_BINS config) (RATING_LABELS config) c = rating_label c.
Proof.
  destruct c as [| s |[q|[]]]; try reflexivity.
  unfold cut_cell, rating_label. bins_by_cases q.
Qed.

Lemma pd_cut_numeric s bins labels :
  numeric s = true → pd_cut s bins labels = Ok (cut_cell bins labels <$> s).
Proof. unfold pd_cut. by intros ->. Qed.

Lemma lookup_setitem_eq d name s : lookup_column name (data (setitem d name s)) = Some s.
Proof. apply lookup_assign_eq. Qed.

Lemma lookup_setitem_ne d name name' s :
  name ≠ name' → lookup_column name' (data (setitem d name s)) = lookup_column name' (data d).
Proof. apply lookup_assign_ne. Qed.

Lemma lookup_add_num_cuisines d name :
  name ≠ "num_cuisines" →
  lookup_column name (data (add_num_cuisines d)) = lookup_column name (data d).
Proof.
  intros Hne. unfold add_num_cuisines.
  destruct (lookup_column cuisines_column (data d)); [|done].
  by apply lookup_setitem_ne.
Qed.

(** C2 (amended): [create_features] labels a cost in (0, 500] Budget, in
    (500, 1000] Moderate, in (1000, 2000] Expensive and above 2000 Premium, and
    a rating in (0, 2] Poor, in (2, 3] Average, in (3, 4] Good and in (4, 5]
    Excellent; every other value and a missing one get no label.  So a cost
    of 0 and a rating of 0 get no label, a cost of 500 is Budget and a rating
    of 2 is Poor. *)
Theorem C2_categories_are_right_closed_bins (df : DataFrame) :
  numeric_if_present df "cost_for_two" = true →
  numeric_if_present df "rate_clean" = true →
  ∃ df',
    call create_features df = Ok df'
    ∧ (∀ cost, getitem df "cost_for_two" = Ok cost →
               getitem df' "cost_category" = Ok (cost_label <$> cost))
    ∧ (∀ rate, getitem df "rate_clean" = Ok rate →
               getitem df' "rating_category" = Ok (rating_label <$> rate))
    ∧ cost_label (Num (of_Z 0)) = NaN
    ∧ cost_label (Num (of_Z 500)) = Str "Budget"
    ∧ cost_label (Num (of_Z 2000)) = Str "Expensive"
    ∧ cost_label (Num (Inf false)) = Str "Premium"
    ∧ rating_label (Num (of_Z 0)) = NaN
    ∧ rating_label (Num (of_Z 2)) = Str "Poor"
    ∧ rating_label (Num (of_Z 5)) = Str "Excellent".
Proof.
  intros Hcost Hrate. rewrite call_create_features.
  unfold create_features_frame, add_category, numeric_if_present in *.
  rewrite (lookup_add_num_cuisines df "cost_for_two") by done.
  destruct (lookup_column "cost_for_two" (data df)) as [cost|] eqn:Ecost.
  - rewrite (pd_cut_numeric _ _ _ Hcost). cbn [result_bind].
    rewrite lookup_setitem_ne, (lookup_add_num_cuisines df "rate_clean") by done.
    destruct (lookup_column "rate_clean" (data df)) as [rate|] eqn:Erate.
    + rewrite (pd_cut_numeric _ _ _ Hrate). cbn [result_bind].
      eexists. split; [reflexivity|]. split_and!; try reflexivity.
      * intros ? Hc%getitem_lookup. rewrite Ecost in Hc. injection Hc as <-.
        apply getitem_Some.
        rewrite lookup_setitem_ne, lookup_setitem_eq by done. f_equal.
        apply list_fmap_ext. intros. apply cut_cell_cost.
      * intros ? Hr%getitem_lookup. rewrite Erate in Hr. injection Hr as <-.
        apply getitem_Some.
        rewrite lookup_setitem_eq. f_equal.
        apply list_fmap_ext. intros. apply cut_cell_rating.
    + eexists. split; [reflexivity|]. split_and!; try reflexivity.
      * intros ? Hc%getitem_lookup. rewrite Ecost in Hc. injection Hc as <-.
        apply getitem_Some.
        rewrite lookup_setitem_eq. f_equal.
        apply list_fmap_ext. intros. apply cut_cell_cost.
      * intros ? Hr%getitem_lookup. by rewrite Erate in Hr.
  - cbn [result_bind].
    rewrite (lookup_add_num_cuisines df "rate_clean") by done.
    destruct (lookup_column "rate_clean" (data df)) as [rate|] eqn:Erate.
    + rewrite (pd_cut_numeric _ _ _ Hrate). cbn [result_bind].
      eexists. split; [reflexivity|]. split_and!; try reflexivity.
      * intros ? Hc%getitem_lookup. by rewrite Ecost in Hc.
      * intros ? Hr%getitem_lookup. rewrite Erate in Hr. injection Hr as <-.
        apply getitem_Some.
        rewrite lookup_setitem_eq. f_equal.
        apply list_fmap_ext. intros. apply cut_cell_rating.
    + eexists. split; [reflexivity|]. split_and!; try reflexivity.
      * intros ? Hc%getitem_lookup. by rewrite Ecost in Hc.
      * intros ? Hr%getitem_lookup. by rewrite Erate in Hr.
Qed.

(** ** Parsing ratings and costs (claim C3) *)








Lemma span_digits_rest s : starts_with_digit (span_digits s).2 = false.
Proof.
  induction s as [|c s IH]; [done|]. simpl. destruct (is_digit c) eqn:Hc.
  - by destruct (span_digits s) as [d r].
  - simpl. done.
Qed.















Lemma float_of_string_raises s e : float_of_string s = Raise e → e = ValueError.
Proof.
  unfold float_of_string. destruct (negb _); [congruence|].
  destruct (parse_sign _) as [neg body].
  destruct (_ || _); [done|]. destruct (bool_decide _); [done|].
  destruct (parse_decimal body); congruence.
Qed.

Lemma except_float_of_string s :
  except_value_type_error (float_of_string s)
  = Ok match float_of_string s with
       | Ok x => cell_of x
       | Raise _ => NaN
       end.
Proof.
  destruct (float_of_string s) as [x|e] eqn:E; [done|].
  by rewrite (float_of_string_raises _ _ E).
Qed.










Lemma is_str_float_result (r : result (option float)) :
  is_str match r with
         | Ok x => cell_of x
         | Raise _ => NaN
         end = false.
Proof. by destruct r as [[x|]|e]. Qed.

Lemma extract_rating_total c :
  ∃ v, _extract_rating c = Ok v ∧ is_str v = false.
Proof.
  destruct c as [|s|x]; [by exists NaN| |by exists (Num x)].
  unfold _extract_rating. cbn [isna float_of_cell].
  destruct (re_search_number s) as [group1|]; rewrite except_float_of_string;
    eexists; (split; [reflexivity|]);
    apply is_str_float_result.
Qed.

Lemma clean_cost_total c :
  ∃ v, _clean_cost c = Ok v ∧ is_str v = false.
Proof.
  destruct c as [|s|x]; [by exists NaN| |by exists (Num x)].
  unfold _clean_cost. cbn [isna]. rewrite except_float_of_string.
  eexists; (split; [reflexivity|]);
    apply is_str_float_result.
Qed.

Lemma apply_raising_total s f :
  (∀ c, ∃ v, f c = Ok v ∧ is_str v = false) →
  ∃ vs, apply_raising s f = Ok vs ∧ Forall2 (λ c v, f c = Ok v) s vs ∧ numeric vs = true.
Proof.
  intros Hf. induction s as [|c s (vs & E & H2 & Hn)]; simpl.
  - exists []. by repeat split.
  - destruct (Hf c) as (v & Ev & Hv). exists (v :: vs). rewrite Ev, E. simpl.
    repeat split; [by constructor|]. by rewrite Hv, Hn.
Qed.



(** What [correct_data_types] computes, for any frame. *)
Lemma correct_data_types_total df :
  ∃ df', call correct_data_types df = Ok df'
    ∧ (∀ rate, getitem df rate_column = Ok rate →
         ∃ extracted m,
           Forall2 (λ c v, _extract_rating c = Ok v) rate extracted
           ∧ median extracted = Ok m
           ∧ getitem df' "rate_clean" = Ok (fillna extracted (cell_of m)))
    ∧ (∀ cost, getitem df cost_column = Ok cost →
         ∃ cleaned,
           Forall2 (λ c v, _clean_cost c = Ok v) cost cleaned
           ∧ getitem df' "cost_for_two" = Ok cleaned).
Proof.
  rewrite call_correct_data_types. unfold correct_data_types_frame, rate_clean_of.
  assert (∃ d, match lookup_column rate_column (data df) with
               | Some rate =>
                   result_bind
                     (result_bind (apply_raising rate _extract_rating) (λ extracted,
                      result_bind (median extracted) (λ m,
                      Ok (fillna extracted (cell_of m)))))
                     (λ s, Ok (setitem df "rate_clean" s))
               | None => Ok df
               end = Ok d
             ∧ lookup_column cost_column (data d) = lookup_column cost_column (data df)
             ∧ ∀ rate, getitem df rate_column = Ok rate →
                 ∃ extracted m,
                   Forall2 (λ c v, _extract_rating c = Ok v) rate extracted
                   ∧ median extracted = Ok m
                   ∧ lookup_column "rate_clean" (data d)
                     = Some (fillna extracted (cell_of m))) as (d & -> & Hcost & Hrate).
  { destruct (lookup_column rate_column (data df)) as [rate|] eqn:Erate.
    - destruct (apply_raising_total rate _ extract_rating_total) as (extracted & -> & H2 & Hn).
      simpl. unfold median at 1. rewrite Hn. simpl. eexists. split; [done|]. split.
      + by apply lookup_setitem_ne.
      + intros ? Hr%getitem_lookup. rewrite Erate in Hr. injection Hr as <-.
        eexists _, _. split; [done|]. unfold median. rewrite Hn.
        split; [done|]. apply lookup_setitem_eq.
    - exists df. split; [done|]. split; [done|].
      intros ? Hr%getitem_lookup. congruence. }
  simpl. rewrite Hcost.
  destruct (lookup_column cost_column (data df)) as [cost|] eqn:Ecost.
  - destruct (apply_raising_total cost _ clean_cost_total) as (cleaned & -> & H2 & Hn).
    simpl. eexists. split; [done|]. split.
    + intros rate Hr. destruct (Hrate rate Hr) as (extracted & m & ? & ? & E).
      exists extracted, m. split; [done|]. split; [done|].
      apply getitem_lookup. by rewrite lookup_setitem_ne.
    + intros ? Hc%getitem_lookup. rewrite Ecost in Hc. injection Hc as <-.
      exists cleaned. split; [done|]. apply getitem_lookup, lookup_setitem_eq.
  - exists d. split; [done|]. split.
    + intros rate Hr. destruct (Hrate rate Hr) as (extracted & m & ? & ? & E).
      exists extracted, m. split; [done|]. split; [done|]. by apply getitem_lookup.
    + intros ? Hc%getitem_lookup. congruence.
Qed.


(** ** Outliers (claim C4) *)

Ltac float_cases :=
  unfold flt, fmin, fmax in *;
  repeat match goal with
  | x : float |- _ => destruct x as [?|[]]
  end;
  cbn [fle negb] in *;
  repeat match goal with
  | H : context [bool_decide ?P] |- _ => destruct (bool_decide_reflect P)
  | |- context [bool_decide ?P] => destruct (bool_decide_reflect P)
  end;
  cbn [negb] in *;
  try done; try (exfalso; qc_lra).

Lemma fle_refl a : fle a a = true.
Proof. float_cases. Qed.

Lemma fle_total a b : fle a b = false → fle b a = true.
Proof. float_cases. Qed.

Lemma fle_trans a b c : fle a b = true → fle b c = true → fle a c = true.
Proof. float_cases. Qed.

Lemma fle_antisym a b : fle a b = true → fle b a = true → a = b.
Proof. float_cases. intros _ _. f_equal. qc_lra. Qed.

Lemma insert_sorted_elem x l y :
  y ∈ insert_sorted x l ↔ y = x ∨ y ∈ l.
Proof.
  induction l as [|z l IH]; simpl.
  - rewrite list_elem_of_singleton, elem_of_nil. split; [by left | by intros [?|[]]].
  - destruct (fle x z); rewrite !elem_of_cons, ?IH; [done|].
    split; [intros [?|[?|?]] | intros [?|[?|?]]]; auto.
Qed.

Lemma forallb_elem {A} (f : A → bool) l :
  forallb f l = true ↔ ∀ y, y ∈ l → f y = true.
Proof.
  rewrite forallb_forall. split; intros H y Hy; apply H; by apply list_elem_of_In.
Qed.

Lemma insert_sorted_sorted x l : sorted l = true → sorted (insert_sorted x l) = true.
Proof.
  induction l as [|z l IH]; [done|]. intros [Hz Hl]%andb_true_iff. cbn [insert_sorted].
  destruct (fle x z) eqn:Hxz.
  - change (forallb (fle x) (z :: l) && sorted (z :: l) = true).
    apply andb_true_iff. split; [|by apply andb_true_iff].
    apply forallb_elem. intros y [->|Hy]%elem_of_cons; [done|].
    eapply fle_trans; [exact Hxz|]. by eapply forallb_elem.
  - change (forallb (fle z) (insert_sorted x l) && sorted (insert_sorted x l) = true).
    apply andb_true_iff. split; [|by apply IH].
    apply forallb_elem. intros y [->|Hy]%insert_sorted_elem.
    + by apply fle_total.
    + by eapply forallb_elem.
Qed.

Lemma sort_floats_sorted l : sorted (sort_floats l) = true.
Proof.
  induction l as [|x l IH]; [done|]. by apply insert_sorted_sorted.
Qed.

Lemma insert_sorted_length x l : length (insert_sorted x l) = S (length l).
Proof.
  induction l as [|z l IH]; [done|]. simpl. destruct (fle x z); simpl; by rewrite ?IH.
Qed.

Lemma sort_floats_length l : length (sort_floats l) = length l.
Proof.
  induction l as [|x l IH]; [done|]. simpl. by rewrite insert_sorted_length, IH.
Qed.

Lemma sorted_lookup l i j a b :
  sorted l = true → i ≤ j → l !! i = Some a → l !! j = Some b → fle a b = true.
Proof.
  revert i j. induction l as [|x l IH]; intros i j Hs Hij Ha Hb; [done|].
  apply andb_true_iff in Hs as [Hx Hl].
  destruct i as [|i], j as [|j]; simpl in *; simplify_eq.
  - apply fle_refl.
  - eapply forallb_elem; [exact Hx|]. by eapply list_elem_of_lookup_2.
  - lia.
  - eapply (IH i j); [done|lia|done|done].
Qed.

Lemma lerp_Fin a b t : lerp (Fin a) (Fin b) t = Some (Fin (a + (b - a) * t)%Qc).
Proof.
  unfold lerp, fsub, fadd, fneg, fmul. cbn [mbind option_bind].
  destruct (bool_decide_reflect (t < half)%Qc); cbn [mbind option_bind];
    do 2 f_equal; ring.
Qed.

Lemma lerp_Inf a b t r :
  fle a b = true → (0 ≤ t)%Qc → (t < 1)%Qc → lerp a b t = Some r →
  (∀ x y, ¬ (a = Fin x ∧ b = Fin y)) →
  (a = Inf true ∧ r = Inf true ∧ ∃ y, b = Fin y)
  ∨ (b = Inf false ∧ r = Inf false ∧ ∃ x, a = Fin x).
Proof.
  intros Hab H0 H1 Hr Hinf. revert Hr.
  destruct a as [a|[]], b as [b|[]]; try done; try (by destruct (Hinf a b));
    unfold lerp, fsub, fadd, fneg, fmul, Qc_neg; cbn [fle negb mbind option_bind] in *;
    repeat match goal with
    | |- context [bool_decide ?P] =>
        destruct (bool_decide_reflect P); cbn [mbind option_bind xorb negb]
    end; try done; intros ?; simplify_eq; eauto; exfalso; qc_lra.
Qed.

Lemma finite_or_not (a b : float) :
  (∃ x y, a = Fin x ∧ b = Fin y) ∨ (∀ x y, ¬ (a = Fin x ∧ b = Fin y)).
Proof. destruct a, b; first [left; by eauto | right; by intros ?? [??]]. Qed.

Lemma lerp_between a b t r :
  fle a b = true → (0 ≤ t)%Qc → (t < 1)%Qc → lerp a b t = Some r →
  fle a r = true ∧ fle r b = true.
Proof.
  intros Hab H0 H1 Hr.
  destruct (finite_or_not a b) as [(x & y & -> & ->)|Hinf].
  - rewrite lerp_Fin in Hr. injection Hr as <-. cbn [fle] in *.
    apply bool_decide_eq_true_1 in Hab.
    split; apply bool_decide_eq_true_2; qc_to_q; nra.
  - by destruct (lerp_Inf a b t r Hab H0 H1 Hr Hinf)
      as [(-> & -> & y & ->)|(-> & -> & x & ->)].
Qed.

Lemma lerp_mono a b t1 t3 r1 r3 :
  fle a b = true → (0 ≤ t1)%Qc → (t1 ≤ t3)%Qc → (t3 < 1)%Qc →
  lerp a b t1 = Some r1 → lerp a b t3 = Some r3 → fle r1 r3 = true.
Proof.
  intros Hab H0 H1 H3 Hr1 Hr3.
  destruct (finite_or_not a b) as [(x & y & -> & ->)|Hinf].
  - rewrite lerp_Fin in Hr1, Hr3. injection Hr1 as <-. injection Hr3 as <-. cbn [fle] in *.
    apply bool_decide_eq_true_1 in Hab.
    apply bool_decide_eq_true_2; qc_to_q; nra.
  - assert (0 ≤ t3)%Qc by (by etrans). assert (t1 < 1)%Qc by (by eapply Qcle_lt_trans).
    destruct (lerp_Inf a b t1 r1) as [(-> & -> & y & ->)|(-> & -> & x & ->)]; [done..| |].
    + done.
    + by destruct (lerp_Inf (Fin x) (Inf false) t3 r3) as [(? & _)|(_ & -> & _)].
Qed.

Lemma quantile_position (n : nat) (q : Qc) :
  (0 ≤ q)%Qc →
  let pos := (Qc_of_nat n * q)%Qc in
  (0 ≤ Qfloor pos)%Z ∧ (0 ≤ pos - Qc_of_Z (Qfloor pos))%Qc
  ∧ (pos - Qc_of_Z (Qfloor pos) < 1)%Qc.
Proof.
  intros Hq pos. destruct (Qfloor_bounds pos) as [H1 H2].
  assert (0 ≤ pos)%Qc as Hpos.
  { assert (0 ≤ Qc_of_nat n)%Qc as Hn by (apply (Qc_of_nat_le 0 n); lia).
    unfold pos. generalize dependent (Qc_of_nat n). intros. qc_to_q. nra. }
  split; [|split].
  - change 0%Z with (Qfloor 0%Qc). by apply Qfloor_resp_le.
  - qc_lra.
  - rewrite Qc_of_Z_plus in H2. qc_lra.
Qed.

Lemma quartiles_ordered xs a b :
  sorted xs = true →
  quantile_sorted xs quarter = Some a → quantile_sorted xs three_quarters = Some b →
  fle a b = true.
Proof.
  intros Hs. unfold quantile_sorted. destruct (bool_decide _); [done|].
  set (n := length xs - 1).
  destruct (quantile_position n quarter) as (Hi1 & Ht1 & Ht1'); [done|].
  destruct (quantile_position n three_quarters) as (Hi3 & Ht3 & Ht3'); [done|].
  assert (Qc_of_nat n * quarter ≤ Qc_of_nat n * three_quarters)%Qc as Hpos.
  { assert (0 ≤ Qc_of_nat n)%Qc as Hn by (apply (Qc_of_nat_le 0 n); lia).
    clear -Hn. generalize dependent (Qc_of_nat n). intros. qc_to_q. nra. }
  assert (Qfloor (Qc_of_nat n * quarter)%Qc ≤ Qfloor (Qc_of_nat n * three_quarters)%Qc)%Z as Hi
    by (apply Qfloor_resp_le; exact Hpos).
  revert Hi1 Ht1 Ht1' Hi3 Ht3 Ht3' Hpos Hi.
  generalize (Qc_of_nat n * quarter)%Qc (Qc_of_nat n * three_quarters)%Qc.
  intros pos1 pos3 Hi1 Ht1 Ht1' Hi3 Ht3 Ht3' Hpos Hi H1 H3.
  destruct (xs !! Z.to_nat (Qfloor pos1)) as [a1|] eqn:Ea1; [|done].
  destruct (xs !! Nat.min (Z.to_nat (Qfloor pos1) + 1) n) as [b1|] eqn:Eb1; [|done].
  destruct (xs !! Z.to_nat (Qfloor pos3)) as [a3|] eqn:Ea3; [|done].
  destruct (xs !! Nat.min (Z.to_nat (Qfloor pos3) + 1) n) as [b3|] eqn:Eb3; [|done].
  cbn [mbind option_bind] in H1, H3.
  pose proof (lookup_lt_Some _ _ _ Ea1) as Hlt1.
  pose proof (lookup_lt_Some _ _ _ Ea3) as Hlt3.
  assert (fle a1 b1 = true) as Hab1 by (eapply (sorted_lookup xs); [done| |done..]; lia).
  assert (fle a3 b3 = true) as Hab3 by (eapply (sorted_lookup xs); [done| |done..]; lia).
  destruct (decide (Qfloor pos1 = Qfloor pos3)) as [Heq|Hne].
  - rewrite <- Heq in *. simplify_eq.
    eapply (lerp_mono a1 b1); [done| | | |exact H1|exact H3]; [done| |done].
    qc_lra.
  - destruct (lerp_between _ _ _ _ Hab1 Ht1 Ht1' H1) as [_ Hb1].
    destruct (lerp_between _ _ _ _ Hab3 Ht3 Ht3' H3) as [Ha3 _].
    eapply fle_trans; [exact Hb1|]. eapply fle_trans; [|exact Ha3].
    eapply (sorted_lookup xs); [done| |done..]. lia.
Qed.

Lemma bounds_ordered Q1 Q3 l u :
  fle Q1 Q3 = true →
  let IQR := nsub (Some Q3) (Some Q1) in
  let k := Some (Fin (OUTLIER_IQR_MULTIPLIER config)) in
  nsub (Some Q1) (nmul k IQR) = Some l → nadd (Some Q3) (nmul k IQR) = Some u →
  fle l u = true.
Proof.
  change (OUTLIER_IQR_MULTIPLIER config) with (Q2Qc (3 # 2)).
  unfold nsub, nadd, nmul, fsub, fadd, fneg, fmul, Qc_neg. cbn [mbind option_bind].
  intros H12.
  destruct Q1 as [a|[]], Q3 as [b|[]]; cbn [fle negb mbind option_bind] in *;
    repeat match goal with
    | |- context [bool_decide ?P] =>
        destruct (bool_decide_reflect P); cbn [mbind option_bind xorb negb]
    end; try done; intros ??; simplify_eq; cbn [fle]; try done.
  apply bool_decide_eq_true_1 in H12. apply bool_decide_eq_true_2. qc_lra.
Qed.



Lemma outlier_bounds_numeric s :
  numeric s = true →
  ∃ Q1 Q3,
    quantile s quarter = Ok Q1 ∧ quantile s three_quarters = Ok Q3
    ∧ let IQR := nsub Q3 Q1 in
      let k := Some (Fin (OUTLIER_IQR_MULTIPLIER config)) in
      let lower_bound := nsub Q1 (nmul k IQR) in
      let upper_bound := nadd Q3 (nmul k IQR) in
      outlier_bounds s = Ok (lower_bound, upper_bound)
      ∧ ∀ l u, lower_bound = Some l → upper_bound = Some u → fle l u = true.
Proof.
  intros Hn. unfold outlier_bounds, quantile. rewrite Hn. cbn [result_bind].
  eexists _, _. split; [done|]. split; [done|]. split; [done|].
  pose proof (sort_floats_sorted (float_values s)) as Hs.
  destruct (quantile_sorted _ quarter) as [a|] eqn:Ea; [|done].
  destruct (quantile_sorted _ three_quarters) as [b|] eqn:Eb; [|by destruct a].
  intros l u. apply bounds_ordered. by eapply quartiles_ordered.
Qed.


Lemma handle_outliers_column_numeric col d outlier_report :
  numeric_if_present d col = true →
  handle_outliers_column col (Ok (d, outlier_report))
  = Ok (update_column col clip_column d, outlier_report ++ report_entry d col).
Proof.
  unfold numeric_if_present, handle_outliers_column, update_column, report_entry, clip_column.
  cbn [result_bind].
  destruct (lookup_column col (data d)) as [s|]; [|by rewrite app_nil_r].
  intros Hn. destruct (outlier_bounds_numeric s Hn) as (Q1 & Q3 & _ & _ & -> & _). done.
Qed.

Lemma handle_outliers_frame_numeric df :
  numeric_if_present df "rate_clean" = true →
  numeric_if_present df "cost_for_two" = true →
  handle_outliers_frame df
  = Ok (update_column "cost_for_two" clip_column (update_column "rate_clean" clip_column df),
        report_entry df "rate_clean" ++ report_entry df "cost_for_two").
Proof.
  intros Hrate Hcost. unfold handle_outliers_frame.
  rewrite handle_outliers_column_numeric by done.
  rewrite handle_outliers_column_numeric.
  - unfold report_entry. by rewrite lookup_update_ne.
  - unfold numeric_if_present. by rewrite lookup_update_ne.
Qed.


Lemma lookup_clipped df col :
  col ∈ numerical_cols →
  lookup_column col
    (data (update_column "cost_for_two" clip_column (update_column "rate_clean" clip_column df)))
  = clip_column <$> lookup_column col (data df).
Proof.
  unfold numerical_cols. rewrite !elem_of_cons, elem_of_nil. intros [->|[->|[]]].
  - by rewrite lookup_update_ne, lookup_update_eq.
  - by rewrite lookup_update_eq, lookup_update_ne.
Qed.



(** ** Frames the methods leave alone (claims C10 and C1) *)

Lemma frames_transformations method n df :
  method ∈ transformations → frames n (method df) (λ r, n ≤ r).
Proof.
  unfold transformations. rewrite !elem_of_cons, elem_of_nil.
  intros [->|[->|[->|[->|[->|[->|[]]]]]]]; frames_leaf.
Qed.

(** C10: in any store, a transformation called on any reference leaves every
    frame of the store as it is, the one it is called on among them, and a
    reference it returns is a new one.  A run of the pipeline leaves the
    loaded frame as it is, and the cleaning impact of its report compares the
    cleaned frame with that frame. *)
Theorem C10_transformations_leave_their_input_unchanged
    (method : ref → M ref) (s : state) (df r : ref) (d : DataFrame) :
  method ∈ transformations →
  heap s !! r = Some d →
  heap (method df s).2 !! r = Some d
  ∧ (∀ df', (method df s).1 = Ok df' → length (heap s) ≤ df' ∧ df' ≠ r)
  ∧ heap (run_pipeline r s).2 !! r = Some d
  ∧ ∀ cleaned_df report,
      (run_pipeline r s).1 = Ok (cleaned_df, report) →
      report_cleaning_impact report
      = _calculate_cleaning_impact d (deref (run_pipeline r s).2 cleaned_df).
Proof.
  intros Hmethod Hr.
  pose proof (frames_transformations method (length (heap s)) df Hmethod) as Hframes.
  split; [by eapply frames_lookup|]. split.
  { intros df' Hdf'. pose proof (frames_fresh _ _ _ _ Hframes Hdf') as Hfresh.
    split; [done|]. apply lookup_lt_Some in Hr. unfold ref in *. lia. }
  split; [eapply frames_lookup; [apply frames_run_pipeline | done]|].
  intros cleaned_df report Hrun.
  eapply run_pipeline_report; [done|].
  destruct (run_pipeline r s) as [res s']. simpl in *. by rewrite Hrun.
Qed.

Lemma lookup_column_None name cols : lookup_column name cols = None ↔ name ∉ cols.*1.
Proof.
  induction cols as [|[n c] cols IH]; simpl.
  - split; [intros _; apply not_elem_of_nil | done].
  - rewrite not_elem_of_cons. case_bool_decide; naive_solver.
Qed.

Lemma lookup_drop_columns df names name :
  name ∈ names → lookup_column name (data (drop_columns df names)) = None.
Proof.
  intros Hname. apply lookup_column_None. unfold drop_columns. cbn [data].
  intros ([n c] & -> & [Hc _]%list_elem_of_filter)%list_elem_of_fmap. done.
Qed.

Lemma lookup_drop_columns_absent df names name :
  name ∉ columns df → lookup_column name (data (drop_columns df names)) = None.
Proof.
  intros Hname. apply lookup_column_None. unfold drop_columns. cbn [data].
  intros ([n c] & -> & [_ Hc]%list_elem_of_filter)%list_elem_of_fmap.
  apply Hname. unfold columns. apply list_elem_of_fmap. by exists (n, c).
Qed.

(** C1 fails: [handle_missing_values] raises [KeyError] for the cost column
    on every frame that lacks the column, and on every frame in which the
    column is dropped because too many of its values are missing. *)
Theorem C1_handle_missing_values_raises_without_cost_column (df : DataFrame) :
  cost_column ∉ columns df ∨ cost_column ∈ sparse_columns df →
  call handle_missing_values df = Raise (KeyError cost_column).
Proof.
  intros [H|H]; apply handle_missing_values_KeyError.
  - by apply lookup_drop_columns_absent.
  - by apply lookup_drop_columns.
Qed.

(** ** Counting cuisines *)

Lemma split_commas_length s : length (split_commas s) = S (count_commas s).
Proof.
  induction s as [|c s IH]; [done|]. simpl. case_bool_decide; simpl; [by rewrite IH|].
  destruct (split_commas s); simpl in *; [done|]. done.
Qed.

(** [_count_cuisines] gives 0 for a missing value and for the two
    placeholders, and for any other text one more than the number of its
    commas, so never 0. *)
Theorem count_cuisines_counts_commas (s : string) :
  s ≠ "Unknown" → s ≠ "Not Specified" →
  _count_cuisines (Str s) = Num (of_nat (S (count_commas s)))
  ∧ _count_cuisines NaN = Num (of_nat 0)
  ∧ _count_cuisines (Str "Unknown") = Num (of_nat 0)
  ∧ _count_cuisines (Str "Not Specified") = Num (of_nat 0).
Proof.
  intros H1 H2. split; [|done]. unfold _count_cuisines. cbn [isna orb str_of_cell].
  rewrite bool_decide_eq_false_2.
  - by rewrite split_commas_length.
  - rewrite !elem_of_cons, elem_of_nil. intros [[= ?]|[[= ?]|[]]]; done.
Qed.

(** ** Columns a method adds, keeps or drops *)

Lemma assign_column_fresh name s cols :
  lookup_column name cols = None → (assign_column name s cols).*1 = cols.*1 ++ [name].
Proof.
  induction cols as [|[n c] cols IH]; [done|]. cbn [lookup_column assign_column].
  case_bool_decide; [done|]. intros Hl. rewrite !fmap_cons, <- app_comm_cons.
  f_equal. by apply IH.
Qed.

Lemma columns_setitem d name s :
  columns (setitem d name s)
  = if contains d name then columns d else columns d ++ [name].
Proof.
  rewrite contains_lookup. unfold columns, setitem. cbn [data].
  destruct (lookup_column name (data d)) as [c|] eqn:E.
  - rewrite bool_decide_eq_true_2 by eauto. apply assign_column_names. eauto.
  - rewrite bool_decide_eq_false_2 by (by intros [? ?]). by apply assign_column_fresh.
Qed.

Lemma columns_setitem_incl d name s col :
  col ∈ columns (setitem d name s) ↔ col ∈ columns d ∨ col = name.
Proof.
  rewrite columns_setitem. destruct (contains d name) eqn:E.
  - apply bool_decide_eq_true_1 in E. naive_solver.
  - rewrite elem_of_app, list_elem_of_singleton. done.
Qed.

Lemma lookup_add_category source target bins labels d d' name :
  add_category source target bins labels d = Ok d' → name ≠ target →
  lookup_column name (data d') = lookup_column name (data d).
Proof.
  unfold add_category. intros H Hne.
  destruct (lookup_column source (data d)); [|by injection H as <-].
  destruct (pd_cut _ _ _); [|done]. injection H as <-. by apply lookup_setitem_ne.
Qed.

Lemma columns_add_category source target bins labels d d' col :
  add_category source target bins labels d = Ok d' →
  col ∈ columns d' ↔ col ∈ columns d ∨ (col = target ∧ source ∈ columns d).
Proof.
  unfold add_category. intros H.
  destruct (lookup_column source (data d)) as [s|] eqn:E.
  - destruct (pd_cut _ _ _); [|done]. injection H as <-.
    rewrite columns_setitem_incl.
    assert (source ∈ columns d).
    { apply (bool_decide_unpack _). fold (contains d source).
      rewrite contains_lookup, E. by apply bool_decide_pack. }
    naive_solver.
  - injection H as <-. apply lookup_column_None in E. fold (columns d) in E. naive_solver.
Qed.

Lemma len_setitem d name s :
  data d ≠ [] → (∀ c, lookup_column name (data d) = Some c → length s = length c) →
  len (setitem d name s) = len d.
Proof.
  destruct d as [[|[n c] cols]]; [done|]. intros _ H. unfold len, setitem. simpl in *.
  case_bool_decide; simpl; [|done]. by apply H.
Qed.

Lemma getitem_ext d d' name :
  lookup_column name (data d') = lookup_column name (data d) → getitem d' name = getitem d name.
Proof. unfold getitem. by intros ->. Qed.

Lemma elem_of_columns d name : name ∈ columns d ↔ is_Some (lookup_column name (data d)).
Proof.
  unfold columns. destruct (lookup_column name (data d)) eqn:E.
  - split; [eauto|]. intros _. destruct (decide (name ∈ (data d).*1)) as [|Hn]; [done|].
    apply lookup_column_None in Hn. congruence.
  - apply lookup_column_None in E. split; [done | by intros [? ?]].
Qed.

Lemma columns_add_num_cuisines d col :
  col ∈ columns (add_num_cuisines d)
  ↔ col ∈ columns d ∨ (col = "num_cuisines" ∧ cuisines_column ∈ columns d).
Proof.
  unfold add_num_cuisines. rewrite (elem_of_columns d cuisines_column).
  destruct (lookup_column cuisines_column (data d)) as [s|].
  - rewrite columns_setitem_incl. naive_solver.
  - split; [auto | intros [?|[_ [? ?]]]; done].
Qed.

Lemma columns_create_features_frame d d' col :
  create_features_frame d = Ok d' →
  col ∈ columns d'
  ↔ col ∈ columns d
    ∨ (col = "num_cuisines" ∧ cuisines_column ∈ columns d)
    ∨ (col = "cost_category" ∧ "cost_for_two" ∈ columns d)
    ∨ (col = "rating_category" ∧ "rate_clean" ∈ columns d).
Proof.
  unfold create_features_frame.
  destruct (add_category "cost_for_two" _ _ _ _) as [d1|] eqn:E1; [|done].
  cbn [result_bind]. intros E2.
  rewrite (columns_add_category _ _ _ _ _ _ col E2).
  rewrite (columns_add_category _ _ _ _ _ _ "rate_clean" E1).
  rewrite (columns_add_category _ _ _ _ _ _ col E1).
  rewrite !columns_add_num_cuisines. naive_solver.
Qed.

(** [create_features] changes no column but [num_cuisines], [cost_category]
    and [rating_category]; it adds each of the three exactly when its source
    column is there, and [num_cuisines] holds the count of every row. *)
Theorem create_features_adds_the_feature_columns (df df' : DataFrame) :
  call create_features df = Ok df' →
  (∀ name, name ∉ ["num_cuisines"; "cost_category"; "rating_category"] →
     getitem df' name = getitem df name)
  ∧ (∀ cuisines, getitem df cuisines_column = Ok cuisines →
       getitem df' "num_cuisines" = Ok (_count_cuisines <$> cuisines))
  ∧ (∀ col, col ∈ columns df'
       ↔ col ∈ columns df
         ∨ (col = "num_cuisines" ∧ cuisines_column ∈ columns df)
         ∨ (col = "cost_category" ∧ "cost_for_two" ∈ columns df)
         ∨ (col = "rating_category" ∧ "rate_clean" ∈ columns df)).
Proof.
  rewrite call_create_features. intros E. pose proof E as E'. revert E'.
  unfold create_features_frame.
  destruct (add_category "cost_for_two" _ _ _ _) as [d1|] eqn:E1; [|done].
  cbn [result_bind]. intros E2.
  split; [|split].
  - intros name Hname. apply getitem_ext.
    rewrite !not_elem_of_cons in Hname. destruct Hname as (? & ? & ? & _).
    rewrite (lookup_add_category _ _ _ _ _ _ name E2) by done.
    rewrite (lookup_add_category _ _ _ _ _ _ name E1) by done.
    by apply lookup_add_num_cuisines.
  - intros cuisines Hc%getitem_lookup. apply getitem_lookup.
    rewrite (lookup_add_category _ _ _ _ _ _ "num_cuisines" E2) by done.
    rewrite (lookup_add_category _ _ _ _ _ _ "num_cuisines" E1) by done.
    unfold add_num_cuisines. rewrite Hc. apply lookup_setitem_eq.
  - intros col. by apply columns_create_features_frame.
Qed.

(** ** Dropping and filling in [handle_missing_values] *)

Lemma threshold_exceeded_half n k :
  threshold_exceeded (Qc_of_nat n * MISSING_THRESHOLD config) k = bool_decide (n < 2 * k).
Proof.
  unfold threshold_exceeded. apply bool_decide_ext.
  change (MISSING_THRESHOLD config) with (Q2Qc (1 # 2)).
  rewrite (Qc_of_nat_lt n (2 * k)). unfold Qc_of_nat.
  rewrite Nat2Z.inj_mul, Qc_of_Z_mult. change (Z.of_nat 2) with 2%Z.
  generalize (Qc_of_Z (Z.of_nat n)) (Qc_of_Z (Z.of_nat k)). intros a b.
  split; intros; qc_lra.
Qed.

Lemma elem_of_sparse_columns df col :
  col ∈ sparse_columns df ↔ (∃ s, (col, s) ∈ data df ∧ len df < 2 * isnull_sum s).
Proof.
  unfold sparse_columns, isnull_sums. rewrite list_elem_of_fmap. split.
  - intros ([n k] & -> & [Hk ([n' s] & [= -> ->] & Hin)%list_elem_of_fmap]%list_elem_of_filter).
    cbn [fst snd] in *. rewrite threshold_exceeded_half in Hk.
    apply bool_decide_unpack in Hk. eauto.
  - intros (s & Hin & Hlt). exists (col, isnull_sum s). split; [done|].
    apply list_elem_of_filter. split.
    + cbn [snd]. rewrite threshold_exceeded_half. by apply bool_decide_pack.
    + apply list_elem_of_fmap. by exists (col, s).
Qed.

Lemma columns_drop_columns df names :
  columns (drop_columns df names) = filter (λ col, col ∉ names) (columns df).
Proof.
  unfold columns, drop_columns. cbn [data].
  induction (data df) as [|[n s] cols IH]; [done|].
  rewrite fmap_cons. cbn [fst]. destruct (decide (n ∈ names)) as [Hn|Hn].
  - rewrite !filter_cons_False by (cbn [fst]; tauto). exact IH.
  - rewrite !filter_cons_True by done. rewrite fmap_cons. by f_equal.
Qed.

Lemma lookup_drop_columns_kept df names name :
  name ∉ names →
  lookup_column name (data (drop_columns df names)) = lookup_column name (data df).
Proof.
  intros Hname. unfold drop_columns. cbn [data].
  induction (data df) as [|[n s] cols IH]; [done|]. cbn [lookup_column].
  destruct (decide (n ∈ names)) as [Hn|Hn].
  - rewrite filter_cons_False by (cbn [fst]; tauto).
    rewrite bool_decide_eq_false_2 by congruence. exact IH.
  - rewrite filter_cons_True by done. cbn [lookup_column]. by rewrite IH.
Qed.

Lemma handle_missing_values_Ok df df' :
  call handle_missing_values df = Ok df' →
  ∃ cost cost_median,
    getitem df cost_column = Ok cost
    ∧ (cost_column ∉ sparse_columns df)
    ∧ median cost = Ok cost_median
    ∧ df' = impute cost_median (drop_columns df (sparse_columns df)).
Proof.
  rewrite call_handle_missing_values. unfold handle_missing_values_frame.
  destruct (getitem _ cost_column) as [cost|] eqn:Ecost; [|done]. cbn [result_bind].
  destruct (median cost) as [m|] eqn:Em; [|done]. cbn [result_bind]. intros [= <-].
  apply getitem_lookup in Ecost.
  assert (cost_column ∉ sparse_columns df) as Hkept.
  { intros Hin. by rewrite lookup_drop_columns in Ecost. }
  rewrite lookup_drop_columns_kept in Ecost by done.
  exists cost, m. split; [by apply getitem_lookup|]. done.
Qed.

(** When [handle_missing_values] returns, it has dropped exactly the columns
    with more missing values than half the number of rows, and kept the
    others in their order and the number of rows. *)
Theorem handle_missing_values_drops_the_sparse_columns (df df' : DataFrame) :
  rectangular df →
  call handle_missing_values df = Ok df' →
  columns df' = filter (λ col, col ∉ sparse_columns df) (columns df)
  ∧ (∀ col, col ∈ sparse_columns df
       ↔ (∃ s, (col, s) ∈ data df ∧ len df < 2 * isnull_sum s))
  ∧ len df' = len df.
Proof.
  intros Hrect (cost & m & Hcost & Hkept & _ & ->)%handle_missing_values_Ok.
  split; [|split].
  - unfold impute. rewrite !columns_update. apply columns_drop_columns.
  - apply elem_of_sparse_columns.
  - rewrite len_impute.
    apply getitem_lookup in Hcost.
    rewrite <- (lookup_drop_columns_kept df (sparse_columns df)) in Hcost by done.
    destruct (data (drop_columns df (sparse_columns df))) as [|c cols] eqn:E.
    + done.
    + by eapply len_drop_columns.
Qed.


Lemma isnull_total_cons n s cols :
  isnull_total (mkDataFrame ((n, s) :: cols))
  = isnull_sum s + isnull_total (mkDataFrame cols).
Proof. reflexivity. Qed.

Lemma isnull_total_map_first name f cols :
  (∀ s, isnull_sum (f s) ≤ isnull_sum s) →
  isnull_total (mkDataFrame (map_first name f cols)) ≤ isnull_total (mkDataFrame cols).
Proof.
  intros Hf. induction cols as [|[n s] cols IH]; [done|]. cbn [map_first].
  case_bool_decide; rewrite !isnull_total_cons; [specialize (Hf s)|]; lia.
Qed.

Lemma isnull_total_drop_columns df names :
  isnull_total (drop_columns df names) ≤ isnull_total df.
Proof.
  destruct df as [cols]. unfold drop_columns. cbn [data].
  induction cols as [|[n s] cols IH]; [done|].
  destruct (decide (n ∈ names)) as [Hn|Hn].
  - rewrite filter_cons_False by (cbn [fst]; tauto). rewrite isnull_total_cons. lia.
  - rewrite filter_cons_True by done. rewrite !isnull_total_cons. lia.
Qed.

(** [handle_missing_values] never adds a missing value: the count it logs as
    removed is not negative. *)
Theorem handle_missing_values_never_adds_missing_values (df df' : DataFrame) :
  call handle_missing_values df = Ok df' →
  isnull_total df' ≤ isnull_total df.
Proof.
  intros (cost & m & _ & _ & _ & ->)%handle_missing_values_Ok.
  etrans; [|apply (isnull_total_drop_columns df (sparse_columns df))].
  rewrite impute_data. unfold impute_columns.
  destruct (drop_columns df (sparse_columns df)) as [cols]. cbn [data].
  do 4 (etrans; [apply isnull_total_map_first; intros; apply isnull_sum_fillna_le|]).
  reflexivity.
Qed.

(** ** Removing duplicates twice *)

Lemma duplicated_from_NoDup seen rs :
  NoDup rs → (∀ r, r ∈ rs → r ∉ seen) →
  duplicated_from seen rs = replicate (length rs) false.
Proof.
  intros Hnd. revert seen. induction Hnd as [|r rs Hr Hnd IH]; intros seen Hseen; [done|].
  cbn [duplicated_from length replicate]. f_equal.
  - apply bool_decide_eq_false_2, Hseen. left.
  - apply IH. intros r' Hr' [->|Hin]%elem_of_cons; [done|].
    by apply (Hseen r'); [right|].
Qed.

Lemma mask_select_all {A} (s : list A) :
  mask_select (negb <$> replicate (length s) false) s = s.
Proof.
  induction s as [|x s IH]; [done|]. cbn [length replicate].
  rewrite fmap_cons. cbn [negb mask_select]. by rewrite IH.
Qed.

Lemma rectangular_Forall df :
  rectangular df ↔ Forall (λ c : string * Series, length c.2 = len df) (data df).
Proof.
  unfold rectangular. rewrite forallb_True. apply Forall_iff. intros c.
  apply bool_decide_spec.
Qed.

Lemma rectangular_drop_duplicates df : rectangular df → rectangular (drop_duplicates df).
Proof.
  intros Hrect. apply rectangular_Forall in Hrect. apply rectangular_Forall.
  assert (length (negb <$> duplicated df) = len df) as Hmask.
  { unfold duplicated. by rewrite length_fmap, length_duplicated_from, length_rows. }
  assert (len (drop_duplicates df) = if data df is [] then 0
                                     else count_true (negb <$> duplicated df)) as Hlen.
  { unfold len at 1, drop_duplicates. cbn [data].
    destruct (data df) as [|[n s] cols]; [done|]. rewrite fmap_cons. cbn [fst snd].
    apply length_mask_select. pose proof (Forall_inv Hrect) as Hs. simpl in Hs. congruence. }
  rewrite Hlen. unfold drop_duplicates. cbn [data].
  destruct (data df) as [|c0 cols0] eqn:E; [by constructor|]. rewrite <- E in *.
  apply Forall_fmap. revert Hrect. apply Forall_impl. intros [n s] Hs. cbn [fst snd] in *.
  unfold compose. cbn [fst snd].
  apply length_mask_select. congruence.
Qed.

Lemma drop_duplicates_NoDup df :
  rectangular df → NoDup (rows df) → drop_duplicates df = df.
Proof.
  intros Hrect Hnd. apply rectangular_Forall in Hrect.
  unfold drop_duplicates, duplicated.
  rewrite (duplicated_from_NoDup [] (rows df) Hnd) by (intros ? _; apply not_elem_of_nil).
  rewrite length_rows. clear Hnd. destruct df as [cols]. cbn [data] in *. f_equal.
  generalize dependent (len (mkDataFrame cols)). intros n Hrect.
  induction Hrect as [|[name s] cols Hs _ IH]; [done|].
  rewrite fmap_cons, IH. cbn [fst snd] in *. subst n. by rewrite mask_select_all.
Qed.

(** [remove_duplicates] is idempotent: on a frame it has returned it returns
    an equal frame, and the count of removed rows it logs is 0. *)
Theorem remove_duplicates_twice (df : DataFrame) :
  rectangular df →
  ∃ d1, call remove_duplicates df = Ok d1
    ∧ call remove_duplicates d1 = Ok d1
    ∧ step_complete "Duplicate Removal" (RemovedDuplicates 0)
      ∈ logged remove_duplicates d1.
Proof.
  intros Hrect. exists (drop_duplicates df).
  assert (drop_duplicates (drop_duplicates df) = drop_duplicates df) as Hidem.
  { apply drop_duplicates_NoDup; [by apply rectangular_drop_duplicates|].
    rewrite rows_drop_duplicates by done.
    apply (keep_first_spec [] (rows df)). }
  unfold call, logged. rewrite !remove_duplicates_run. cbn [returned deref heap log snd].
  rewrite Hidem. split; [done|]. split; [done|].
  rewrite Z.sub_diag. apply elem_of_cons. right. apply list_elem_of_singleton. done.
Qed.

(** ** Columns a method does not find, and columns it leaves alone *)

Lemma update_column_absent name f d : name ∉ columns d → update_column name f d = d.
Proof.
  intros Hn. unfold update_column.
  by rewrite (proj2 (lookup_column_None name (data d)) Hn).
Qed.

Lemma columns_map_columns names f cols : (map_columns names f cols).*1 = cols.*1.
Proof.
  unfold map_columns. revert cols. induction names as [|n names IH]; intros cols; [done|].
  cbn [foldl]. by rewrite IH, map_first_names.
Qed.

Lemma len_map_columns names f cols :
  (∀ s, length (f s) = length s) →
  len (mkDataFrame (map_columns names f cols)) = len (mkDataFrame cols).
Proof.
  intros Hf. unfold map_columns. revert cols.
  induction names as [|n names IH]; intros cols; [done|].
  cbn [foldl]. by rewrite IH, len_map_first.
Qed.

Lemma standardize_series_length s : length (standardize_series s) = length s.
Proof. by rewrite standardize_series_cell, length_fmap. Qed.

(** [standardize_text_columns] returns for every frame; it keeps the names
    and the order of the columns and the number of rows, and a column that
    is not a text column of the configuration is as it was. *)
Theorem standardize_text_columns_keeps_the_other_columns (df : DataFrame) :
  ∃ df', call standardize_text_columns df = Ok df'
    ∧ columns df' = columns df
    ∧ len df' = len df
    ∧ ∀ name, name ∉ TEXT_COLUMNS config → getitem df' name = getitem df name.
Proof.
  exists (standardize_text_columns_frame df).
  split; [apply call_standardize_text_columns|].
  rewrite standardize_text_columns_frame_data. split; [|split].
  - apply columns_map_columns.
  - rewrite len_map_columns by apply standardize_series_length. by destruct df.
  - intros name Hname. apply getitem_ext. cbn [data].
    by apply lookup_map_columns_notin.
Qed.

(** A method that does not find its source columns returns a frame equal to
    the one it was given: [correct_data_types] without the rating and the
    cost column, [handle_outliers] and [create_features] without the columns
    they read, [standardize_text_columns] without any text column. *)
Theorem absent_source_columns_are_skipped (df : DataFrame) :
  (rate_column ∉ columns df → cost_column ∉ columns df →
   call correct_data_types df = Ok df)
  ∧ ("rate_clean" ∉ columns df → "cost_for_two" ∉ columns df →
     call handle_outliers df = Ok df
     ∧ logged handle_outliers df
       = [step_start "Outlier Handling";
          step_complete "Outlier Handling" (OutliersHandled [])])
  ∧ (cuisines_column ∉ columns df → "cost_for_two" ∉ columns df →
     "rate_clean" ∉ columns df →
     call create_features df = Ok df)
  ∧ ((∀ column, column ∈ TEXT_COLUMNS config → column ∉ columns df) →
     call standardize_text_columns df = Ok df).
Proof.
  split; [|split; [|split]].
  - intros Hrate%lookup_column_None Hcost%lookup_column_None.
    rewrite call_correct_data_types. unfold correct_data_types_frame.
    rewrite Hrate. cbn [result_bind]. by rewrite Hcost.
  - intros Hrate%lookup_column_None Hcost%lookup_column_None.
    assert (handle_outliers_frame df = Ok (df, [])) as Hframe.
    { unfold handle_outliers_frame, handle_outliers_column. cbn [result_bind].
      rewrite Hrate. cbn [result_bind]. by rewrite Hcost. }
    unfold logged. rewrite call_handle_outliers, handle_outliers_run, Hframe. done.
  - intros Hcuisines%lookup_column_None Hcost%lookup_column_None Hrate%lookup_column_None.
    rewrite call_create_features.
    unfold create_features_frame, add_num_cuisines, add_category.
    rewrite Hcuisines, Hcost. cbn [result_bind]. by rewrite Hrate.
  - intros Habsent. rewrite call_standardize_text_columns. f_equal.
    unfold standardize_text_columns_frame.
    induction (TEXT_COLUMNS config) as [|column columns' IH]; [done|]. cbn [foldl].
    rewrite update_column_absent by (apply Habsent; left).
    apply IH. intros c Hc. apply Habsent. by right.
Qed.

(** ** From the corrected types to the features *)

Lemma numeric_Forall s : numeric s = true ↔ Forall (λ c, is_str c = false) s.
Proof.
  unfold numeric. rewrite forallb_forall, Forall_forall. split; intros H c Hc.
  - apply negb_true_iff. by apply H.
  - apply negb_true_iff. by apply H.
Qed.

Lemma numeric_clip s lo hi : numeric s = true → numeric (clip s lo hi) = true.
Proof.
  rewrite !numeric_Forall. intros H. unfold clip.
  destruct (match lo with Some _ => _ | None => _ end) as [lo' hi'].
  apply Forall_fmap. revert H. apply Forall_impl. intros c Hc. unfold compose.
  destruct c as [|x|x]; [by destruct lo', hi'|done|].
  unfold clip_lower, clip_upper.
  destruct lo' as [l|]; [destruct (fle l x)|]; (destruct hi' as [u|]; [|done]).
  all: by match goal with |- context [fle ?a ?b] => destruct (fle a b) end.
Qed.

Lemma numeric_clip_column s : numeric s = true → numeric (clip_column s) = true.
Proof.
  intros H. unfold clip_column. destruct (outlier_bounds s); [|done]. by apply numeric_clip.
Qed.

Lemma numeric_cleaned (f : cell → result cell) s vs :
  (∀ c v, f c = Ok v → is_str v = false) →
  Forall2 (λ c v, f c = Ok v) s vs → numeric vs = true.
Proof.
  intros Hf H. apply numeric_Forall. induction H as [|c v s vs Hv _ IH]; constructor; eauto.
Qed.

Lemma extract_rating_not_str c v : _extract_rating c = Ok v → is_str v = false.
Proof. destruct (extract_rating_total c) as (v' & E & Hv). rewrite E. by intros [= <-]. Qed.

Lemma clean_cost_not_str c v : _clean_cost c = Ok v → is_str v = false.
Proof. destruct (clean_cost_total c) as (v' & E & Hv). rewrite E. by intros [= <-]. Qed.

Lemma create_features_frame_numeric d :
  numeric_if_present d "cost_for_two" = true →
  numeric_if_present d "rate_clean" = true →
  ∃ d', create_features_frame d = Ok d'.
Proof.
  unfold numeric_if_present, create_features_frame, add_category. intros Hcost Hrate.
  rewrite lookup_add_num_cuisines by done.
  destruct (lookup_column "cost_for_two" (data d)) as [cost|].
  - rewrite pd_cut_numeric by done. cbn [result_bind].
    rewrite lookup_setitem_ne, lookup_add_num_cuisines by done.
    destruct (lookup_column "rate_clean" (data d)) as [rate|]; [|eauto].
    rewrite pd_cut_numeric by done. cbn [result_bind]. eauto.
  - cbn [result_bind]. rewrite lookup_add_num_cuisines by done.
    destruct (lookup_column "rate_clean" (data d)) as [rate|]; [|eauto].
    rewrite pd_cut_numeric by done. cbn [result_bind]. eauto.
Qed.

(** On a frame with the rating and the cost column, [correct_data_types],
    then [handle_outliers], then [create_features] all return: the columns
    [rate_clean] and [cost_for_two] that the first one writes are numeric,
    clipping keeps them numeric, and so the quantiles and the binning are
    defined. *)
Theorem corrected_types_feed_outliers_and_features (df : DataFrame) :
  rate_column ∈ columns df → cost_column ∈ columns df →
  ∃ d1 d2 d3,
    call correct_data_types df = Ok d1
    ∧ call handle_outliers d1 = Ok d2
    ∧ call create_features d2 = Ok d3
    ∧ numeric_if_present d2 "rate_clean" = true
    ∧ numeric_if_present d2 "cost_for_two" = true
    ∧ "rating_category" ∈ columns d3
    ∧ "cost_category" ∈ columns d3.
Proof.
  intros [rate Hrate]%elem_of_columns [cost Hcost]%elem_of_columns.
  destruct (correct_data_types_total df) as (d1 & E1 & Hr & Hc).
  destruct (Hr rate) as (extracted & m & Hex & Hm & Hr1); [by apply getitem_lookup|].
  destruct (Hc cost) as (cleaned & Hcl & Hc1); [by apply getitem_lookup|].
  apply getitem_lookup in Hr1, Hc1.
  assert (numeric (fillna extracted (cell_of m)) = true) as Hn1.
  { apply Is_true_true, numeric_fillna, Is_true_true.
    eapply numeric_cleaned; [apply extract_rating_not_str | exact Hex]. }
  assert (numeric cleaned = true) as Hn2
    by (eapply numeric_cleaned; [apply clean_cost_not_str | exact Hcl]).
  assert (numeric_if_present d1 "rate_clean" = true) as Hp1
    by (unfold numeric_if_present; by rewrite Hr1).
  assert (numeric_if_present d1 "cost_for_two" = true) as Hp2
    by (unfold numeric_if_present; by rewrite Hc1).
  pose proof (handle_outliers_frame_numeric d1 Hp1 Hp2) as E2.
  set (d2 := update_column "cost_for_two" clip_column
               (update_column "rate_clean" clip_column d1)) in *.
  assert (lookup_column "rate_clean" (data d2)
          = Some (clip_column (fillna extracted (cell_of m)))) as Hr2.
  { unfold d2. rewrite lookup_clipped, Hr1; [done|]. unfold numerical_cols. set_solver. }
  assert (lookup_column "cost_for_two" (data d2) = Some (clip_column cleaned)) as Hc2.
  { unfold d2. rewrite lookup_clipped, Hc1; [done|]. unfold numerical_cols. set_solver. }
  assert (numeric_if_present d2 "rate_clean" = true) as Hq1.
  { unfold numeric_if_present. rewrite Hr2. by apply numeric_clip_column. }
  assert (numeric_if_present d2 "cost_for_two" = true) as Hq2.
  { unfold numeric_if_present. rewrite Hc2. by apply numeric_clip_column. }
  destruct (create_features_frame_numeric d2 Hq2 Hq1) as [d3 E3].
  exists d1, d2, d3. split; [done|]. split; [by rewrite call_handle_outliers, E2|].
  pose proof (λ col, columns_create_features_frame d2 d3 col E3) as Hcols.
  rewrite <- call_create_features in E3. split; [done|]. split; [done|]. split; [done|].
  split; apply Hcols; right; right.
  - right. split; [done|]. apply elem_of_columns. eauto.
  - left. split; [done|]. apply elem_of_columns. eauto.
Qed.

(** ** A run of the pipeline without the cost column *)

Lemma handle_missing_values_run_KeyError df :
  lookup_column cost_column (data (drop_columns df (sparse_columns df))) = None →
  (handle_missing_values 0 (init df)).1 = Raise (KeyError cost_column)
  ∧ log (handle_missing_values 0 (init df)).2
    = step_start "Missing Values Handling"
      :: match sparse_columns df with
         | [] => []
         | names => [log_warning_event (DroppedColumns names)]
         end.
Proof.
  intros Hcost. unfold handle_missing_values, log_step_start, log_step_complete, log_warning.
  do 6 run_step.
  change (filter _ (isnull_sums df)).*1 with (sparse_columns df).
  destruct (sparse_columns df) as [|c cs] eqn:E.
  - rewrite drop_columns_nil in Hcost. do 2 run_step.
    by rewrite (getitem_None _ _ Hcost).
  - do 4 run_step. by rewrite (getitem_None _ _ Hcost).
Qed.

(** A run of the pipeline on a frame without the cost column, or with a cost
    column that is dropped for its missing values, stops in its first step
    with [KeyError]: no step is logged as complete and the loaded frame is as
    it was. *)
Theorem run_pipeline_stops_without_cost_column (df : DataFrame) :
  cost_column ∉ columns df ∨ cost_column ∈ sparse_columns df →
  (run_pipeline 0 (init df)).1 = Raise (KeyError cost_column)
  ∧ (∀ step_name d, step_complete step_name d ∉ log (run_pipeline 0 (init df)).2)
  ∧ heap (run_pipeline 0 (init df)).2 !! 0 = Some df.
Proof.
  intros Hcost.
  assert (lookup_column cost_column (data (drop_columns df (sparse_columns df))) = None)
    as Hnone.
  { destruct Hcost; [by apply lookup_drop_columns_absent | by apply lookup_drop_columns]. }
  destruct (handle_missing_values_run_KeyError df Hnone) as [Hres Hlog].
  assert (run_pipeline 0 (init df)
          = (Raise (KeyError cost_column), (handle_missing_values 0 (init df)).2)) as Hrun.
  { unfold run_pipeline. rewrite bind_run.
    destruct (handle_missing_values 0 (init df)) as [[r|e] s]; simpl in *; congruence. }
  split; [by rewrite Hrun|]. split.
  - intros step_name d. rewrite Hrun. cbn [snd]. rewrite Hlog.
    intros [?|Hin]%elem_of_cons; [done|].
    destruct (sparse_columns df); [by apply elem_of_nil in Hin|].
    apply list_elem_of_singleton in Hin. done.
  - eapply frames_lookup; [apply frames_run_pipeline | done].
Qed.

(** ** The quality report *)


Lemma round_zero d : round 0 d = 0%Qc.
Proof.
  unfold round. rewrite Qcmult_0_l.
  assert (round_half_even 0 = 0%Z) as -> by apply (round_half_even_Z 0).
  apply Qc_is_canon. unfold Qcdiv, Qcmult, Q2Qc. cbn [this].
  rewrite Qred_correct. apply Qmult_0_l.
Qed.



Lemma round_between (x : Qc) (N : Z) (d : nat) :
  (0 ≤ x)%Qc → (x ≤ Qc_of_Z N)%Qc → (0 ≤ round x d ≤ Qc_of_Z N)%Qc.
Proof.
  intros H0 H1. unfold round.
  assert (0 < 10 ^ Z.of_nat d)%Z as Hscale by (apply Z.pow_pos_nonneg; lia).
  pose proof Hscale as Hs%Qc_of_Z_lt.
  assert (0 ≤ round_half_even (x * Qc_of_Z (10 ^ Z.of_nat d)))%Z as Hr0.
  { apply round_half_even_nonneg.
    generalize dependent (Qc_of_Z (10 ^ Z.of_nat d)). intros. qc_to_q. nra. }
  assert (round_half_even (x * Qc_of_Z (10 ^ Z.of_nat d)) ≤ N * 10 ^ Z.of_nat d)%Z as Hr1.
  { apply round_half_even_le. rewrite Qc_of_Z_mult.
    generalize dependent (Qc_of_Z (10 ^ Z.of_nat d)).
    generalize dependent (Qc_of_Z N). intros. qc_to_q. nra. }
  apply Qc_of_Z_le in Hr0, Hr1. rewrite Qc_of_Z_mult in Hr1.
  split.
  - apply Qcdiv_ge_iff; [done|]. by rewrite Qcmult_0_l.
  - by apply Qcdiv_le_iff.
Qed.

(** The missing-value percentage of the metrics lies between 0 and 100 and
    is 0 for a frame without a missing value, and the missing values counted
    are at most the cells of the frame. *)
Theorem missing_value_percentage_bounds (df : DataFrame) :
  rectangular df →
  let metrics := _calculate_quality_metrics df in
  (0 ≤ missing_value_percentage metrics ≤ Qc_of_Z 100)%Qc
  ∧ (isnull_total df = 0 → missing_value_percentage metrics = 0%Qc)
  ∧ total_missing_values metrics ≤ total_rows metrics * total_columns metrics.
Proof.
  intros Hrect. cbv zeta. pose proof (isnull_total_le df Hrect) as Hle.
  unfold _calculate_quality_metrics.
  cbn [missing_value_percentage total_missing_values total_rows total_columns].
  split; [|split; [|done]].
  - case_bool_decide as Ht; [|split; [done | by apply (Qc_of_Z_le 0 100)]].
    pose proof (Qc_of_nat_pos _ Ht) as Hpos.
    assert (0 ≤ Qc_of_nat (isnull_total df) / Qc_of_nat (len df * length (columns df)))%Qc
      as H0.
    { apply Qcdiv_ge_iff; [done|]. rewrite Qcmult_0_l. apply (Qc_of_nat_le 0). lia. }
    assert (Qc_of_nat (isnull_total df) / Qc_of_nat (len df * length (columns df)) ≤ 1)%Qc
      as H1.
    { apply Qcdiv_le_iff; [done|]. rewrite Qcmult_1_l. by apply Qc_of_nat_le. }
    apply round_between;
      generalize dependent (Qc_of_nat (isnull_total df)
                            / Qc_of_nat (len df * length (columns df)))%Qc;
      intros; qc_lra.
  - intros ->. case_bool_decide; [|done].
    replace (Qc_of_nat 0 / Qc_of_nat (len df * length (columns df)) * Qc_of_Z 100)%Qc
      with 0%Qc; [apply round_zero|].
    assert (Qc_of_nat 0 = 0%Qc) as -> by (by apply Qc_is_canon). unfold Qcdiv. ring.
Qed.

(** ** The validation log *)





End Pipeline.

(** * Examples *)

Local Open Scope nat_scope.

Lemma C1_witness :
  call handle_missing_values no_cost_column = Raise (KeyError cost_column)
  ∧ call handle_missing_values sparse_cost_column = Raise (KeyError cost_column).
Proof.
  split; apply C1_handle_missing_values_raises_without_cost_column.
  - left. compute_done.
  - right. compute_done.
Defined.

Lemma C2_witness :
  ∃ df', call (create_features sample_repr) boundary_values = Ok df'
    ∧ getitem df' "cost_category"
      = Ok (cost_label <$> [Num (of_Z 0); Num (of_Z 500); Num (of_Z 1200); NaN]).
Proof.
  destruct (C2_categories_are_right_closed_bins sample_repr boundary_values)
    as (df' & E & Hcost & _); [reflexivity..|].
  exists df'. split; [exact E|]. apply Hcost. reflexivity.
Defined.

(** C2 as claimed fails: a cost of 0 and a rating of 0 get no category, a
    cost of 500 is Budget and a rating of 2 is Poor. *)
Lemma C2_counterexample :
  result_bind (call (create_features sample_repr) boundary_values)
    (λ df', getitem df' "cost_category")
  = Ok [NaN; Str "Budget"; Str "Expensive"; NaN]
  ∧ result_bind (call (create_features sample_repr) boundary_values)
      (λ df', getitem df' "rating_category")
    = Ok [NaN; Str "Poor"; Str "Excellent"; NaN].
Proof. split; compute_done. Qed.









Lemma C8_witness :
  ∃ df', call remove_duplicates restaurants = Ok df' ∧ NoDup (rows df') ∧ len df' ≤ 4.
Proof.
  destruct (C8_remove_duplicates_keeps_first restaurants)
    as (df' & E & _ & _ & _ & _ & Hnodup & _ & Hlen & _); [vm_compute; exact I|].
  exists df'. split; [exact E|]. split; [exact Hnodup|exact Hlen].
Defined.

Lemma C9_witness :
  ∃ df' s',
    call (standardize_text_columns sample_repr) restaurants = Ok df'
    ∧ getitem df' "name" = Ok s'
    ∧ isnull_sum s' = 0
    ∧ s' !! 3 = Some (Str "Nan").
Proof.
  destruct (C9_text_columns_hold_strings sample_repr restaurants "name"
              [Str " pizza hut "; Str "dominos"; Str " pizza hut "; NaN])
    as (df' & s' & E & Es & _ & _ & Hnull & Hnan); [compute_done|reflexivity|].
  exists df', s'. split; [exact E|]. split; [exact Es|]. split; [exact Hnull|].
  apply Hnan. reflexivity.
Defined.

Lemma C10_witness :
  heap (handle_missing_values 0 (init restaurants)).2 !! 0 = Some restaurants.
Proof.
  destruct (C10_transformations_leave_their_input_unchanged sample_repr
              handle_missing_values (init restaurants) 0 0 restaurants) as [H _].
  - apply list_elem_of_here.
  - reflexivity.
  - exact H.
Defined.

Lemma count_cuisines_counts_commas_witness :
  _count_cuisines sample_repr (Str "Italian, Pizza") = Num (of_nat 2).
Proof.
  destruct (count_cuisines_counts_commas sample_repr "Italian, Pizza") as [H _];
    [done..|]. exact H.
Defined.

Lemma create_features_adds_the_feature_columns_witness :
  ∃ df', call (create_features sample_repr) restaurants = Ok df'
    ∧ getitem df' "num_cuisines"
      = Ok (_count_cuisines sample_repr
              <$> [Str "Italian, Pizza"; NaN; Str "Italian, Pizza"; Str "Cafe"]).
Proof.
  destruct (call (create_features sample_repr) restaurants) as [df'|e] eqn:E;
    [|vm_compute in E; discriminate E].
  exists df'. split; [reflexivity|].
  destruct (create_features_adds_the_feature_columns sample_repr restaurants df' E)
    as (_ & H & _).
  apply H. reflexivity.
Defined.

Lemma handle_missing_values_drops_the_sparse_columns_witness :
  ∃ df', call handle_missing_values sparse_dishes = Ok df'
    ∧ columns df'
      = filter (λ col, col ∉ sparse_columns sparse_dishes) (columns sparse_dishes)
    ∧ len df' = 4.
Proof.
  destruct (call handle_missing_values sparse_dishes) as [df'|e] eqn:E;
    [|vm_compute in E; discriminate E].
  exists df'. split; [reflexivity|].
  destruct (handle_missing_values_drops_the_sparse_columns sparse_dishes df')
    as (H1 & _ & H2); [vm_compute; exact I | exact E |].
  split; [exact H1 | exact H2].
Defined.


Lemma handle_missing_values_never_adds_missing_values_witness :
  ∃ df', call handle_missing_values restaurants = Ok df'
    ∧ isnull_total df' ≤ isnull_total restaurants.
Proof.
  destruct (call handle_missing_values restaurants) as [df'|e] eqn:E;
    [|vm_compute in E; discriminate E].
  exists df'. split; [reflexivity|].
  exact (handle_missing_values_never_adds_missing_values restaurants df' E).
Defined.

Lemma remove_duplicates_twice_witness :
  ∃ d1, call remove_duplicates restaurants = Ok d1
    ∧ call remove_duplicates d1 = Ok d1.
Proof.
  destruct (remove_duplicates_twice restaurants) as (d1 & E1 & E2 & _);
    [vm_compute; exact I|].
  exists d1. split; [exact E1 | exact E2].
Defined.

Lemma absent_source_columns_are_skipped_witness :
  call correct_data_types no_cost_column = Ok no_cost_column
  ∧ call handle_outliers no_cost_column = Ok no_cost_column.
Proof.
  destruct (absent_source_columns_are_skipped sample_repr no_cost_column)
    as (H1 & H2 & _).
  split.
  - apply H1; vm_compute; intros Hin; inversion Hin; subst;
      match goal with H : _ ∈ [] |- _ => inversion H end.
  - apply H2; vm_compute; intros Hin; inversion Hin; subst;
      match goal with H : _ ∈ [] |- _ => inversion H end.
Defined.

Lemma corrected_types_feed_outliers_and_features_witness :
  ∃ d1 d2 d3,
    call correct_data_types restaurants = Ok d1
    ∧ call handle_outliers d1 = Ok d2
    ∧ call (create_features sample_repr) d2 = Ok d3.
Proof.
  destruct (corrected_types_feed_outliers_and_features sample_repr restaurants)
    as (d1 & d2 & d3 & E1 & E2 & E3 & _).
  - apply (bool_decide_unpack _). vm_compute. reflexivity.
  - apply (bool_decide_unpack _). vm_compute. reflexivity.
  - exists d1, d2, d3. split; [exact E1|]. split; [exact E2 | exact E3].
Defined.

Lemma run_pipeline_stops_without_cost_column_witness :
  (run_pipeline sample_repr 0 (init no_cost_column)).1 = Raise (KeyError cost_column).
Proof.
  destruct (run_pipeline_stops_without_cost_column sample_repr no_cost_column) as [H _].
  - left. apply (bool_decide_unpack _). vm_compute. reflexivity.
  - exact H.
Defined.

Lemma missing_value_percentage_bounds_witness :
  (0 ≤ missing_value_percentage (_calculate_quality_metrics restaurants)
   ≤ Qc_of_Z 100)%Qc.
Proof.
  destruct (missing_value_percentage_bounds restaurants) as [H _].
  - vm_compute. exact I.
  - exact H.
Defined.
